(** * Form-submission pipeline of the Carlora website

    Shallow embedding of
    - [src/lib/email/email-service.ts]: [EmailService] (configuration,
      address validation, [sendWithRetry], [sendEmail]) and
      [EmailTemplate.render];
    - [src/app/api/book-consultation/route.ts] and
      [src/app/api/applications/route.ts]: the consultation, contact and
      application [POST] handlers with their zod schemas.

    Library code the repository only calls (zod's [.email()] and
    [.datetime()] checks, DOMPurify behind [sanitizeHtml], the SMTP server
    answering [transporter.sendMail]) enters as type classes, so that the
    theorems hold for any behaviour of it. *)

From Stdlib Require Import String Ascii List Bool Arith Lia.
Import ListNotations.
Open Scope string_scope.
Open Scope nat_scope.
Open Scope list_scope.

(* ------------------------------------------------------------------ *)
(** ** Characters and strings *)

Definition in_range (lo hi : nat) (c : ascii) : bool :=
  (lo <=? nat_of_ascii c) && (nat_of_ascii c <=? hi).

Definition is_digit (c : ascii) : bool := in_range 48 57 c.
Definition is_upper (c : ascii) : bool := in_range 65 90 c.
Definition is_lower (c : ascii) : bool := in_range 97 122 c.
Definition is_alpha (c : ascii) : bool := is_upper c || is_lower c.
Definition is_alnum (c : ascii) : bool := is_alpha c || is_digit c.

(** JavaScript's [\s] and the characters [String.prototype.trim] removes,
    restricted to ASCII: tab, LF, VT, FF, CR and space. *)
Definition is_space (c : ascii) : bool :=
  in_range 9 13 c || Ascii.eqb c " "%char.

Fixpoint all_chars (p : ascii -> bool) (s : string) : bool :=
  match s with
  | EmptyString => true
  | String c s' => p c && all_chars p s'
  end.

Fixpoint str_rev (s : string) : string :=
  match s with
  | EmptyString => EmptyString
  | String c s' => (str_rev s' ++ String c EmptyString)%string
  end.

Fixpoint trim_start (s : string) : string :=
  match s with
  | EmptyString => EmptyString
  | String c s' => if is_space c then trim_start s' else s
  end.

(** [String.prototype.trim]. *)
Definition trim (s : string) : string := str_rev (trim_start (str_rev (trim_start s))).

Definition lower_char (c : ascii) : ascii :=
  if is_upper c then ascii_of_nat (nat_of_ascii c + 32) else c.

(** [String.prototype.toLowerCase] on ASCII. *)
Fixpoint toLowerCase (s : string) : string :=
  match s with
  | EmptyString => EmptyString
  | String c s' => String (lower_char c) (toLowerCase s')
  end.

(** [s.split(c)] for a one-character separator. *)
Fixpoint split_on (sep : ascii) (s : string) : list string :=
  match s with
  | EmptyString => [EmptyString]
  | String c s' =>
      if Ascii.eqb c sep then EmptyString :: split_on sep s'
      else match split_on sep s' with
           | [] => [String c EmptyString]
           | w :: ws => String c w :: ws
           end
  end.

Fixpoint last_char (s : string) : option ascii :=
  match s with
  | EmptyString => None
  | String c EmptyString => Some c
  | String _ s' => last_char s'
  end.

Definition first_char (s : string) : option ascii :=
  match s with
  | EmptyString => None
  | String c _ => Some c
  end.

Definition opt_test (p : ascii -> bool) (o : option ascii) : bool :=
  match o with Some c => p c | None => false end.

(* ------------------------------------------------------------------ *)
(** ** The repository's e-mail pattern

    [/^[a-zA-Z0-9.!#$%&'*+/=?^_`{|}~-]+@[a-zA-Z0-9](?:[a-zA-Z0-9-]{0,61}[a-zA-Z0-9])?(?:\.[a-zA-Z0-9](?:[a-zA-Z0-9-]{0,61}[a-zA-Z0-9])?)*$/],
    used by [EmailService.validateEmail], [utils.validateEmail] and the
    contact schema.  Neither the local-part class nor the domain classes
    contain [@], so a match splits the input at its only [@]; domain labels
    contain no [.], so the domain splits at every [.]. *)

Definition local_char (c : ascii) : bool :=
  is_alnum c || existsb (Ascii.eqb c) (list_ascii_of_string ".!#$%&'*+/=?^_`{|}~-").

Definition label_char (c : ascii) : bool := is_alnum c || Ascii.eqb c "-"%char.

(** [[a-zA-Z0-9](?:[a-zA-Z0-9-]{0,61}[a-zA-Z0-9])?]: 1 to 63 characters,
    letters, digits and hyphens, starting and ending with a letter or digit. *)
Definition label_ok (l : string) : bool :=
  (1 <=? String.length l) && (String.length l <=? 63) && all_chars label_char l
  && opt_test is_alnum (first_char l) && opt_test is_alnum (last_char l).

Definition email_regex_test (s : string) : bool :=
  match split_on "@"%char s with
  | [loc; dom] =>
      (1 <=? String.length loc) && all_chars local_char loc
      && forallb label_ok (split_on "."%char dom)
  | _ => false
  end.

(* ------------------------------------------------------------------ *)
(** ** JavaScript values

    The values a JSON body or a [Record<string, any>] carries, as far as
    the handlers look at them (numbers and arrays are not modelled). *)

Inductive jsval :=
| JStr (s : string)
| JBool (b : bool)
| JNull
| JUndefined
| JObj.

(** [String(value)]. *)
Definition String_of (v : jsval) : string :=
  match v with
  | JStr s => s
  | JBool true => "true"
  | JBool false => "false"
  | JNull => "null"
  | JUndefined => "undefined"
  | JObj => "[object Object]"
  end.

(** An object as the list of its own entries, in [Object.entries] order. *)
Definition jsobject := list (string * jsval).

Fixpoint lookup (k : string) (o : jsobject) : jsval :=
  match o with
  | [] => JUndefined
  | (k', v) :: o' => if String.eqb k k' then v else lookup k o'
  end.

(** Truthiness of an optional string ([undefined] and [""] are falsy). *)
Definition truthy (o : option string) : bool :=
  match o with
  | Some s => negb (String.eqb s "")
  | None => false
  end.

Definition opt_eqb (o : option string) (v : string) : bool :=
  match o with
  | Some s => String.eqb s v
  | None => false
  end.

(* ------------------------------------------------------------------ *)
(** ** Exceptions, results, logs *)

Inductive exn :=
| EInvalidAddress                  (** [new Error('Invalid email address(es)')] *)
| ENotInitialized                  (** [new Error('Email transporter not initialized')] *)
| ESmtp                            (** a rejection of [transporter.sendMail] *)
| ESanitize                        (** an exception out of DOMPurify *)
| ERegExpKey (key : string).       (** see [render] *)

Inductive result (A : Type) :=
| Ok (a : A)
| Err (e : exn).
Arguments Ok {A} a.
Arguments Err {A} e.

Definition rbind {A B} (r : result A) (f : A -> result B) : result B :=
  match r with
  | Ok a => f a
  | Err e => Err e
  end.

Inductive log_entry :=
| LWarn (msg : string)                        (** [console.warn] *)
| LConsole (msg : string)                     (** [console.log] *)
| LInfo (context msg : string)                (** [logInfo] *)
| LRetry (attempt : nat)                      (** [logInfo] of [`Retrying email send (attempt n)`] *)
| LError (context : string) (e : option exn). (** [logError] *)

(* ------------------------------------------------------------------ *)
(** ** [EmailTemplate.render]

    [new RegExp(`{{${key}}}`, 'g')] followed by
    [html.replace(regex, String(value))].  For a key of identifier shape
    ([[A-Za-z_][A-Za-z0-9_]*], the shape of every key any caller passes) the
    regular expression matches the literal text [{{key}}]: no character of
    it is a metacharacter and [{...}] is not a valid quantifier.  The
    embedding does not interpret regular-expression syntax beyond that: for
    any other key, [render] stops with [ERegExpKey key].

    The replacement string goes through [GetSubstitution]: for a pattern
    without capture groups, [$$], [$&], [$`] and [$'] are special, every
    other [$] stands for itself. *)

Definition plain_key (k : string) : bool :=
  match k with
  | EmptyString => false
  | String c r =>
      (is_alpha c || Ascii.eqb c "_"%char)
      && all_chars (fun d => is_alnum d || Ascii.eqb d "_"%char) r
  end.

(** [GetSubstitution(matched, str, position, [], undefined, replacement)]. *)
Fixpoint GetSubstitution (str matched : string) (pos : nat) (rep : string) : string :=
  match rep with
  | EmptyString => EmptyString
  | String c r =>
      if Ascii.eqb c "$"%char then
        match r with
        | EmptyString => String c EmptyString
        | String d r' =>
            if Ascii.eqb d "$"%char then String "$"%char (GetSubstitution str matched pos r')
            else if Ascii.eqb d "&"%char then (matched ++ GetSubstitution str matched pos r')%string
            else if Ascii.eqb d "`"%char then
              (substring 0 pos str ++ GetSubstitution str matched pos r')%string
            else if Ascii.eqb d "'"%char then
              (substring (pos + String.length matched) (String.length str) str
                 ++ GetSubstitution str matched pos r')%string
            else String c (GetSubstitution str matched pos r)
        end
      else String c (GetSubstitution str matched pos r)
  end.

(** [str.replace(/pat/g, rep)] for a literal, non-empty [pat]: matches are
    searched left to right, each one resumes the search after its end. *)
Fixpoint replace_go (str pat rep : string) (pos skip : nat) (rest : string) : string :=
  match rest with
  | EmptyString => EmptyString
  | String c rest' =>
      match skip with
      | S k => replace_go str pat rep (S pos) k rest'
      | O =>
          if String.prefix pat rest
          then (GetSubstitution str pat pos rep
                  ++ replace_go str pat rep (S pos) (String.length pat - 1) rest')%string
          else String c (replace_go str pat rep (S pos) 0 rest')
      end
  end.

Definition replace_global (pat rep str : string) : string := replace_go str pat rep 0 0 str.

Record EmailTemplate := { htmlTemplate : string; textTemplate : string }.

Record RenderedTemplate := { rendered_html : string; rendered_text : string }.

Definition render (t : EmailTemplate) (data : jsobject) : result RenderedTemplate :=
  fold_left
    (fun acc kv =>
       rbind acc (fun r =>
         let '(key, value) := kv in
         if plain_key key then
           let pat := ("{{" ++ key ++ "}}")%string in
           Ok {| rendered_html := replace_global pat (String_of value) (rendered_html r);
                 rendered_text := replace_global pat (String_of value) (rendered_text r) |}
         else Err (ERegExpKey key)))
    data
    (Ok {| rendered_html := htmlTemplate t; rendered_text := textTemplate t |}).

(* ------------------------------------------------------------------ *)
(** ** The e-mail service

    [process.env] as read by the service. *)

Record env := {
  NODE_ENV : option string;
  SMTP_HOST : option string;
  SMTP_PORT : option string;
  SMTP_USER : option string;
  SMTP_PASSWORD : option string;
  SMTP_FROM : option string
}.

(** Library code behind the service: the SMTP server's answer to the
    [n]-th [transporter.sendMail] call of the process, and DOMPurify as
    configured by [sanitizeHtml] in [src/lib/utils.ts]. *)
Class Transport := { sendMail_ok : nat -> bool }.
Class Sanitizer := { sanitizeHtml : string -> result string }.

Record transport_config := {
  tc_host : string;
  tc_port : string;
  tc_secure : bool;
  tc_user : string;
  tc_pass : string;
  tc_rejectUnauthorized : bool
}.

Record EmailService := {
  transporter : option transport_config;
  defaultFrom : string;
  isConfigured : bool
}.

Definition maxRetries : nat := 3.
Definition retryDelay : nat := 1000.

Definition env_or (o : option string) (d : string) : string :=
  if truthy o then match o with Some s => s | None => d end else d.

(** [initializeTransporter]: the transporter and [isConfigured], with the
    warning it prints. *)
Definition initializeTransporter (e : env) : option transport_config * bool * list log_entry :=
  if negb (truthy (SMTP_HOST e)) || negb (truthy (SMTP_USER e)) || negb (truthy (SMTP_PASSWORD e))
  then (None, false, [LWarn "Email service not configured: Missing SMTP credentials"])
  else (Some {| tc_host := env_or (SMTP_HOST e) "";
                tc_port := env_or (SMTP_PORT e) "587";
                tc_secure := opt_eqb (SMTP_PORT e) "465";
                tc_user := env_or (SMTP_USER e) "";
                tc_pass := env_or (SMTP_PASSWORD e) "";
                tc_rejectUnauthorized := opt_eqb (NODE_ENV e) "production" |},
        true, []).

(** [new EmailService()]. *)
Definition newEmailService (e : env) : EmailService * list log_entry :=
  let '(t, conf, l) := initializeTransporter e in
  ({| transporter := t; defaultFrom := env_or (SMTP_FROM e) ""; isConfigured := conf |}, l).

(** *** The service's effects: a state and error monad

    The state counts [sendMail] calls, and records the log lines and the
    [setTimeout] delays awaited. *)

Record world := { attempts : nat; logs : list log_entry; sleeps : list nat }.

Definition M (A : Type) : Type := world -> result A * world.

Definition ret {A} (a : A) : M A := fun w => (Ok a, w).

Definition bind {A B} (m : M A) (f : A -> M B) : M B :=
  fun w => match m w with
           | (Ok a, w') => f a w'
           | (Err e, w') => (Err e, w')
           end.

Definition raise {A} (e : exn) : M A := fun w => (Err e, w).

Definition lift {A} (r : result A) : M A := fun w => (r, w).

(** [try { m } catch (error) { h(error) }]. *)
Definition catch {A} (m : M A) (h : exn -> M A) : M A :=
  fun w => match m w with
           | (Err e, w') => h e w'
           | r => r
           end.

Notation "x <- m ;; k" := (bind m (fun x => k))
  (at level 61, m at next level, right associativity).
Notation "m ;; k" := (bind m (fun _ => k)) (at level 61, right associativity).

Definition log (l : log_entry) : M unit :=
  fun w => (Ok tt, {| attempts := attempts w; logs := logs w ++ [l]; sleeps := sleeps w |}).

(** [await new Promise(resolve => setTimeout(resolve, ms))]. *)
Definition sleep (ms : nat) : M unit :=
  fun w => (Ok tt, {| attempts := attempts w; logs := logs w; sleeps := sleeps w ++ [ms] |}).

Record attachment := { att_filename : string; att_path : string }.

(** The [mailOptions] object [sendEmail] builds. *)
Record MailOptions := {
  mo_from_name : string;
  mo_from_address : string;
  mo_to : string;
  mo_subject : string;
  mo_text : option string;
  mo_html : option string;
  mo_replyTo : option string;
  mo_attachments : option (list attachment);
  mo_entity_ref_id : string;
  mo_list_unsubscribe : string
}.

(** [await this.transporter.sendMail(mailOptions)]. *)
Definition sendMail `{Transport} (mo : MailOptions) : M unit :=
  fun w => ((if sendMail_ok (attempts w) then Ok tt else Err ESmtp),
            {| attempts := S (attempts w); logs := logs w; sleeps := sleeps w |}).

(** The body of the [try] block of [sendWithRetry]. *)
Definition send_once `{Transport} (e : env) (svc : EmailService) (mo : MailOptions) : M bool :=
  match transporter svc with
  | None => raise ENotInitialized
  | Some _ =>
      sendMail mo;;
      (if negb (opt_eqb (NODE_ENV e) "production") then log (LConsole "Email sent:") else ret tt);;
      log (LInfo "Email Service" "Email sent successfully");;
      ret true
  end.

(** [sendWithRetry(mailOptions, retries)]: the source recurses with
    [retries + 1] while [retries < maxRetries]; the fuel
    [maxRetries - retries] is never exhausted on that path
    ([sendWithRetry_eq] below). *)
Fixpoint sendWithRetry_go `{Transport} (fuel : nat) (e : env) (svc : EmailService)
    (mo : MailOptions) (retries : nat) : M bool :=
  catch (send_once e svc mo)
    (fun err =>
       if retries <? maxRetries then
         log (LRetry (retries + 1));;
         sleep retryDelay;;
         match fuel with
         | O => raise err
         | S f => sendWithRetry_go f e svc mo (retries + 1)
         end
       else raise err).

Definition sendWithRetry `{Transport} (e : env) (svc : EmailService) (mo : MailOptions)
    (retries : nat) : M bool :=
  sendWithRetry_go (maxRetries - retries) e svc mo retries.

Inductive recipients :=
| ToOne (s : string)
| ToMany (l : list string).

Record EmailOptions := {
  to : recipients;
  subject : string;
  text : option string;
  html : option string;
  from : option string;
  replyTo : option string;
  attachments : option (list attachment);
  template : option EmailTemplate;
  templateData : option jsobject
}.

Definition recipient_list (r : recipients) : list string :=
  match r with
  | ToOne s => [s]
  | ToMany l => l
  end.

(** [validateEmail] and [validateEmails]. *)
Definition validateEmail (s : string) : bool := email_regex_test s.

Definition validateEmails (r : recipients) : bool := forallb validateEmail (recipient_list r).

Fixpoint join (sep : string) (l : list string) : string :=
  match l with
  | [] => ""
  | [x] => x
  | x :: l' => (x ++ sep ++ join sep l')%string
  end.

(** [process.env.SMTP_FROM?.split('@')[1] || 'carlora.com']. *)
Definition unsubscribe_domain (e : env) : string :=
  match SMTP_FROM e with
  | None => "carlora.com"
  | Some f =>
      match nth_error (split_on "@"%char f) 1 with
      | Some d => if String.eqb d "" then "carlora.com" else d
      | None => "carlora.com"
      end
  end.

(** Template application, sanitization and the [mailOptions] literal of
    [sendEmail]; [now] is [Date.now().toString()]. *)
Definition prepareMail `{Sanitizer} (e : env) (svc : EmailService) (now : string)
    (o : EmailOptions) : result MailOptions :=
  rbind
    (match template o, templateData o with
     | Some t, Some d =>
         rbind (render t d) (fun r => Ok (Some (rendered_html r), Some (rendered_text r)))
     | _, _ => Ok (html o, text o)
     end)
    (fun '(h, t) =>
       rbind
         (match h with
          | Some s => if truthy h then rbind (sanitizeHtml s) (fun s' => Ok (Some s')) else Ok h
          | None => Ok None
          end)
         (fun h' =>
            Ok {| mo_from_name := "Carlora Strategic Innovation";
                  mo_from_address := if truthy (from o) then env_or (from o) "" else defaultFrom svc;
                  mo_to := match to o with ToOne s => s | ToMany l => join "," l end;
                  mo_subject := subject o;
                  mo_text := t;
                  mo_html := h';
                  mo_replyTo := replyTo o;
                  mo_attachments := attachments o;
                  mo_entity_ref_id := now;
                  mo_list_unsubscribe := ("<mailto:unsubscribe@" ++ unsubscribe_domain e ++ ">")%string |})).

(** The body of the [try] block of [sendEmail]. *)
Definition sendEmail_try `{Transport} `{Sanitizer} (e : env) (svc : EmailService) (now : string)
    (o : EmailOptions) : M bool :=
  if negb (validateEmails (to o)) then raise EInvalidAddress
  else if opt_eqb (NODE_ENV e) "development" || negb (isConfigured svc) then
    log (LConsole "Email would be sent in production:");; ret true
  else
    mo <- lift (prepareMail e svc now o);;
    sendWithRetry e svc mo 0.

(** [sendEmail(options)]. *)
Definition sendEmail `{Transport} `{Sanitizer} (e : env) (svc : EmailService) (now : string)
    (o : EmailOptions) : M bool :=
  catch (sendEmail_try e svc now o)
    (fun err => log (LError "Email Sending Error" (Some err));; ret false).

(* ------------------------------------------------------------------ *)
(** ** zod schemas

    The fragment of zod the three schemas use: [z.string()] with
    [.min], [.max], [.email], [.regex], [.datetime] checks and one
    [.transform], [z.enum], [.optional()], and [z.object(...).safeParse].
    A string runs all its checks and reports every failing one; the
    transform runs only on a string that passed them.  [z.object] parses
    its keys in declaration order, collects the issues of all of them, and
    keeps only the schema's keys, leaving out those whose value is
    [undefined].  Issue messages of zod's own ([Required], type and enum
    errors) are abbreviated. *)

Class Zod := {
  zod_email : string -> bool;      (** [z.string().email()] *)
  zod_datetime : string -> bool    (** [z.string().datetime()] *)
}.

Inductive check :=
| CMin (n : nat) (msg : string)
| CMax (n : nat) (msg : string)
| CEmail (msg : string)
| CRegex (test : string -> bool) (msg : string)
| CDatetime.

Inductive ztype :=
| ZString (checks : list check) (transform : option (string -> string))
| ZEnum (options : list string)
| ZOptional (t : ztype).

Definition schema := list (string * ztype).

(** A zod issue as the handlers report it: [{ field: path.join('.'), message }]. *)
Definition issue := (string * string)%type.

Definition run_check `{Zod} (s : string) (c : check) : option string :=
  match c with
  | CMin n m => if String.length s <? n then Some m else None
  | CMax n m => if n <? String.length s then Some m else None
  | CEmail m => if zod_email s then None else Some m
  | CRegex t m => if t s then None else Some m
  | CDatetime => if zod_datetime s then None else Some "Invalid datetime"
  end.

Definition type_error (v : jsval) : string :=
  match v with
  | JUndefined => "Required"
  | _ => "Expected string"
  end.

Fixpoint parse_type `{Zod} (t : ztype) (v : jsval) : list string + jsval :=
  match t with
  | ZString cs tr =>
      match v with
      | JStr s =>
          match flat_map (fun c => match run_check s c with Some m => [m] | None => [] end) cs with
          | [] => inr (JStr (match tr with Some f => f s | None => s end))
          | msgs => inl msgs
          end
      | _ => inl [type_error v]
      end
  | ZEnum opts =>
      match v with
      | JStr s => if existsb (String.eqb s) opts then inr v else inl ["Invalid enum value"]
      | JUndefined => inl ["Required"]
      | _ => inl ["Invalid enum value"]
      end
  | ZOptional t' =>
      match v with
      | JUndefined => inr JUndefined
      | _ => parse_type t' v
      end
  end.

Fixpoint parse_fields `{Zod} (sch : schema) (data : jsobject) : list issue * jsobject :=
  match sch with
  | [] => ([], [])
  | (k, t) :: sch' =>
      let '(iss, out) := parse_fields sch' data in
      match parse_type t (lookup k data) with
      | inl msgs => (map (fun m => (k, m)) msgs ++ iss, out)
      | inr JUndefined => (iss, out)
      | inr v => (iss, (k, v) :: out)
      end
  end.

(** [schema.safeParse(data)]: the issues, or the parsed data. *)
Definition safeParse `{Zod} (sch : schema) (data : jsobject) : list issue + jsobject :=
  match parse_fields sch data with
  | ([], out) => inr out
  | (iss, _) => inl iss
  end.

(** [/^[a-zA-Z\s]*$/]. *)
Definition name_regex_test (s : string) : bool := all_chars (fun c => is_alpha c || is_space c) s.

Fixpoint suffixes (s : string) : list string :=
  s :: match s with
       | EmptyString => []
       | String _ s' => suffixes s'
       end.

(** [[1-9]\d{1,14}] matching a whole string. *)
Definition phone_digits (t : string) : bool :=
  match t with
  | String c r =>
      in_range 49 57 c && all_chars is_digit r
      && (1 <=? String.length r) && (String.length r <=? 14)
  | EmptyString => false
  end.

(** [/\+?[1-9]\d{1,14}$/]: not anchored at the start, so it holds when
    some suffix of the input matches [\+?[1-9]\d{1,14}]. *)
Definition phone_regex_test (s : string) : bool :=
  existsb
    (fun t => phone_digits t
              || match t with
                 | String c r => Ascii.eqb c "+"%char && phone_digits r
                 | EmptyString => false
                 end)
    (suffixes s).

Definition honeypot_field : string * ztype :=
  ("honeypot", ZOptional (ZString [CMax 0 "String must contain at most 0 character(s)"] None)).

Definition consultationSchema : schema :=
  [("name", ZString [CMin 2 "Name must be at least 2 characters"] None);
   ("email", ZString [CEmail "Invalid email address"] None);
   ("company", ZString [CMin 2 "Company name must be at least 2 characters"] None);
   ("industry", ZEnum ["Technology"; "Finance"; "Healthcare"; "Retail"; "Manufacturing"; "Other"]);
   ("companySize", ZEnum ["1-10"; "11-50"; "51-200"; "201-500"; "500+"]);
   ("consultationType", ZEnum ["Business Strategy"; "Digital Transformation";
                               "Performance Optimization"; "Market Analysis";
                               "Innovation Consulting"]);
   ("message", ZString [CMin 10 "Please provide more details about your needs"] None);
   ("preferredDate", ZString [CMin 1 "Please select a preferred date"] None);
   honeypot_field].

Definition contactSchema : schema :=
  [("name", ZString [CMin 2 "Name must be at least 2 characters";
                     CRegex name_regex_test "Name must contain only letters"]
                    (Some trim));
   ("email", ZString [CEmail "Invalid email format";
                      CRegex email_regex_test "Please enter a valid email address"]
                     (Some (fun v => trim (toLowerCase v))));
   ("message", ZString [CMin 10 "Message must be at least 10 characters";
                        CMax 1000 "Message must not exceed 1000 characters"]
                       (Some trim));
   ("timestamp", ZOptional (ZString [CDatetime] None));
   honeypot_field].

Definition applicationSchema : schema :=
  [("name", ZString [CMin 2 "Name must be at least 2 characters"] None);
   ("email", ZString [CEmail "Invalid email address"] None);
   ("phone", ZString [CRegex phone_regex_test "Invalid phone number"] None);
   ("message", ZString [CMin 10 "Please provide more details"] None);
   honeypot_field].

(* ------------------------------------------------------------------ *)
(** ** The [POST] handlers

    The three handlers share one shape; [route] selects the schema, the log
    contexts, the e-mail and the success response of each.  The rate
    limiter ([@/lib/rate-limit]), the body parser ([request.json()], or
    formidable for the application form) and [emailService.sendEmail] are
    the handler's inputs. *)

Inductive route := Consultation | Contact | Application.

(** The templates of [@/lib/email/email-templates]. *)
Class Templates := {
  consultationBookingTemplate : EmailTemplate;
  contactFormTemplate : EmailTemplate;
  applicationFormTemplate : EmailTemplate
}.

Record Request := {
  x_forwarded_for : option string;    (** [request.headers.get('x-forwarded-for')] *)
  user_agent : option string          (** [request.headers.get('user-agent')] *)
}.

Record HandlerInput := {
  request : Request;
  now_iso : string;                   (** [new Date().toISOString()] *)
  limiter : option bool;              (** [(await rateLimit(request)).success]; [None]: it throws *)
  payload : option jsobject;          (** the parsed body or form fields; [None]: parsing throws *)
  resume : option attachment;         (** [files.resume] *)
  smtp_user : string;                 (** [process.env.SMTP_USER!] *)
  writeFile_ok : bool                 (** [await writeFile(files.resume.path, '')] succeeds *)
}.

Record DiagnosticInfo := { startTime : string; clientIP : string; userAgent : jsval }.

Definition diagnosticInfo (i : HandlerInput) : DiagnosticInfo :=
  {| startTime := now_iso i;
     clientIP := env_or (x_forwarded_for (request i)) "unknown";
     userAgent := match user_agent (request i) with Some u => JStr u | None => JNull end |}.

Inductive resp_body :=
| RError (msg : string)                                     (** [{ error }] *)
| RErrorDetails (msg : string) (details : list issue)       (** [{ error, details }] *)
| RMessage (msg : string)                                   (** [{ message }] *)
| RSuccess (msg : string).                                  (** [{ success: true, message }] *)

Record Response := { status : nat; body : resp_body }.

Inductive hevent :=
| HLogError (context : string)
| HLogInfo (context : string)
| HSend (o : EmailOptions)          (** a call of [emailService.sendEmail] *)
| HWriteFile (path : string).

Definition js_truthy (v : jsval) : bool :=
  match v with
  | JStr s => negb (String.eqb s "")
  | JBool b => b
  | JNull | JUndefined => false
  | JObj => true
  end.

Definition schema_of (r : route) : schema :=
  match r with
  | Consultation => consultationSchema
  | Contact => contactSchema
  | Application => applicationSchema
  end.

Definition validation_context (r : route) : string :=
  match r with
  | Consultation => "Consultation Booking Validation Failed"
  | Contact => "Form Validation Failed"
  | Application => "Application Form Validation Failed"
  end.

Definition error_context (r : route) : string :=
  match r with
  | Consultation => "Consultation Booking Error"
  | Contact => "Contact Form Error"
  | Application => "Application Form Error"
  end.

Definition success_context (r : route) : string :=
  match r with
  | Consultation => "Consultation Booking Success"
  | Contact => "Form Submission Success"
  | Application => "Application Form Success"
  end.

Definition success_body (r : route) : resp_body :=
  match r with
  | Consultation => RSuccess "Consultation request submitted successfully"
  | Contact => RMessage "Message sent successfully"
  | Application => RMessage "Application submitted successfully"
  end.

Definition field (k : string) (vd : jsobject) : string * jsval := (k, lookup k vd).

Definition metadata (i : HandlerInput) : jsobject :=
  let di := diagnosticInfo i in
  [("timestamp", JStr (now_iso i)); ("ip", JStr (clientIP di)); ("userAgent", userAgent di)].

(** The argument of [emailService.sendEmail] in each handler. *)
Definition email_of `{Templates} (r : route) (i : HandlerInput) (vd : jsobject) : EmailOptions :=
  let name := String_of (lookup "name" vd) in
  match r with
  | Consultation =>
      {| to := ToOne (smtp_user i);
         subject := ("New Consultation Request: " ++ name ++ " - "
                       ++ String_of (lookup "company" vd))%string;
         text := None; html := None; from := None; replyTo := None; attachments := None;
         template := Some consultationBookingTemplate;
         templateData := Some (vd ++ metadata i) |}
  | Contact =>
      {| to := ToOne (smtp_user i);
         subject := ("Contact Form: " ++ name)%string;
         text := None; html := None; from := None; replyTo := None; attachments := None;
         template := Some contactFormTemplate;
         templateData := Some ([field "name" vd; field "email" vd; field "message" vd]
                                 ++ metadata i) |}
  | Application =>
      {| to := ToOne (smtp_user i);
         subject := ("Application Form: " ++ name)%string;
         text := None; html := None; from := None; replyTo := None;
         attachments := Some (match resume i with Some a => [a] | None => [] end);
         template := Some applicationFormTemplate;
         templateData := Some ([field "name" vd; field "email" vd; field "phone" vd;
                                field "message" vd] ++ metadata i) |}
  end.

Definition tech_difficulties : string :=
  "We're experiencing technical difficulties. Please try again later or contact support directly.".

(** [POST(request)] of route [r]; [sendEmail] is the result
    [emailService.sendEmail] gives on each argument. *)
Definition POST `{Zod} `{Templates} (r : route) (sendEmail : EmailOptions -> bool)
    (i : HandlerInput) : Response * list hevent :=
  let internal_error evs :=
    ({| status := 500; body := RError tech_difficulties |}, evs ++ [HLogError (error_context r)]) in
  match limiter i with
  | None => internal_error []
  | Some false =>
      ({| status := 429; body := RError "Too many requests. Please try again in a few minutes." |},
       [HLogError "Rate Limit Exceeded"])
  | Some true =>
      match payload i with
      | None => internal_error []
      | Some data =>
          match safeParse (schema_of r) data with
          | inl validationErrors =>
              ({| status := 400;
                  body := RErrorDetails "Please check your input and try again" validationErrors |},
               [HLogError (validation_context r)])
          | inr validatedData =>
              if js_truthy (lookup "honeypot" validatedData) then
                ({| status := 400; body := RError "Form submission rejected" |},
                 [HLogError "Honeypot Triggered"])
              else
                let o := email_of r i validatedData in
                if negb (sendEmail o) then internal_error [HSend o]
                else
                  let cleanup :=
                    match r, resume i with
                    | Application, Some a => [HWriteFile (att_path a)]
                    | _, _ => []
                    end in
                  if (match cleanup with [] => false | _ => negb (writeFile_ok i) end)
                  then internal_error ([HSend o] ++ cleanup)
                  else ({| status := 200; body := success_body r |},
                        [HSend o] ++ cleanup ++ [HLogInfo (success_context r)])
          end
      end
  end.

(* ------------------------------------------------------------------ *)
(** ** zod 3 as an instance

    The [.email()] pattern of zod 3.23 (a space added before the first
    closing parenthesis),
    [/^(?!\.)(?!.*\.\.)([A-Z0-9_'+\-\.]* )[A-Z0-9_+-]@([A-Z0-9][A-Z0-9\-]*\.)+[A-Z]{2,}$/i],
    and its default [.datetime()] pattern
    [/^\d{4}-\d{2}-\d{2}T\d{2}:\d{2}:\d{2}(\.\d+)?Z$/].  No class of the
    e-mail pattern contains [@], and the domain labels contain no [.]. *)

Definition zlocal_char (c : ascii) : bool :=
  is_alnum c || existsb (Ascii.eqb c) (list_ascii_of_string "_'+-.").

Definition zlocal_last (c : ascii) : bool :=
  is_alnum c || existsb (Ascii.eqb c) (list_ascii_of_string "_+-").

Definition zlabel (l : string) : bool :=
  opt_test is_alnum (first_char l) && all_chars label_char l.

Definition ztld (l : string) : bool := (2 <=? String.length l) && all_chars is_alpha l.

Fixpoint has_double_dot (s : string) : bool :=
  match s with
  | String c ((String d _) as s') =>
      (Ascii.eqb c "."%char && Ascii.eqb d "."%char) || has_double_dot s'
  | _ => false
  end.

Definition zod3_email (s : string) : bool :=
  negb (opt_test (Ascii.eqb "."%char) (first_char s)) && negb (has_double_dot s) &&
  match split_on "@"%char s with
  | [loc; dom] =>
      let parts := split_on "."%char dom in
      (1 <=? String.length loc) && all_chars zlocal_char loc && opt_test zlocal_last (last_char loc)
      && (2 <=? List.length parts) && forallb zlabel (removelast parts) && ztld (last parts "")
  | _ => false
  end.

Fixpoint digits_prefix (n : nat) (s : string) : option string :=
  match n, s with
  | O, _ => Some s
  | S n', String c s' => if is_digit c then digits_prefix n' s' else None
  | S _, EmptyString => None
  end.

Definition lit (c : ascii) (s : string) : option string :=
  match s with
  | String d s' => if Ascii.eqb c d then Some s' else None
  | EmptyString => None
  end.

Definition obind (o : option string) (f : string -> option string) : option string :=
  match o with Some s => f s | None => None end.

(** [(\.\d+)?Z$] *)
Definition fraction_z (s : string) : bool :=
  String.eqb s "Z" ||
  match s with
  | String c r =>
      Ascii.eqb c "."%char &&
      (let ds := str_rev r in
       match ds with
       | String z ds' => Ascii.eqb z "Z"%char && (1 <=? String.length ds') && all_chars is_digit ds'
       | EmptyString => false
       end)
  | EmptyString => false
  end.

Definition zod3_datetime (s : string) : bool :=
  match obind (digits_prefix 4 s) (fun s => obind (lit "-" s) (fun s =>
        obind (digits_prefix 2 s) (fun s => obind (lit "-" s) (fun s =>
        obind (digits_prefix 2 s) (fun s => obind (lit "T" s) (fun s =>
        obind (digits_prefix 2 s) (fun s => obind (lit ":" s) (fun s =>
        obind (digits_prefix 2 s) (fun s => obind (lit ":" s) (fun s =>
        digits_prefix 2 s)))))))))) with
  | Some rest => fraction_z rest
  | None => false
  end.

#[export] Instance zod3 : Zod := { zod_email := zod3_email; zod_datetime := zod3_datetime }.

(** The world after one more log line. *)
Definition logged (w : world) (l : log_entry) : world :=
  {| attempts := attempts w; logs := logs w ++ [l]; sleeps := sleeps w |}.

(** The log lines of a successful [sendMail] in [sendWithRetry]. *)
Definition sent_logs (e : env) : list log_entry :=
  (if negb (opt_eqb (NODE_ENV e) "production") then [LConsole "Email sent:"] else [])
  ++ [LInfo "Email Service" "Email sent successfully"].

(** ** Concrete configurations used by the examples below *)

(** An SMTP server that answers every [sendMail] with an error, one that
    accepts from the third call of the process on, one that accepts every
    call; a DOMPurify stand-in returning its input. *)
Definition smtp_down : Transport := {| sendMail_ok := fun _ => false |}.
Definition smtp_third_call : Transport := {| sendMail_ok := fun n => 2 <=? n |}.
Definition smtp_up : Transport := {| sendMail_ok := fun _ => true |}.
Definition purify_identity : Sanitizer := {| sanitizeHtml := fun s => Ok s |}.

Definition world0 : world := {| attempts := 0; logs := []; sleeps := [] |}.

Definition production_env : env :=
  {| NODE_ENV := Some "production"; SMTP_HOST := Some "smtp.carlora.com"; SMTP_PORT := Some "587";
     SMTP_USER := Some "ops@carlora.com"; SMTP_PASSWORD := Some "secret";
     SMTP_FROM := Some "noreply@carlora.com" |}.

(** Production, with no [SMTP_HOST]. *)
Definition production_env_no_host : env :=
  {| NODE_ENV := Some "production"; SMTP_HOST := None; SMTP_PORT := Some "587";
     SMTP_USER := Some "ops@carlora.com"; SMTP_PASSWORD := Some "secret";
     SMTP_FROM := Some "noreply@carlora.com" |}.

Definition plain_options (r : recipients) : EmailOptions :=
  {| to := r; subject := "Email System Test"; text := Some "test"; html := Some "<p>test</p>";
     from := None; replyTo := None; attachments := None; template := None; templateData := None |}.

Definition plain_mail : MailOptions :=
  {| mo_from_name := "Carlora Strategic Innovation"; mo_from_address := "noreply@carlora.com";
     mo_to := "ops@carlora.com"; mo_subject := "Email System Test"; mo_text := Some "test";
     mo_html := Some "<p>test</p>"; mo_replyTo := None; mo_attachments := None;
     mo_entity_ref_id := "0"; mo_list_unsubscribe := "<mailto:unsubscribe@carlora.com>" |}.

(** A zod type without [.transform]: it returns its input when it accepts it. *)
Fixpoint transform_free (t : ztype) : bool :=
  match t with
  | ZString _ None => true
  | ZString _ (Some _) => false
  | ZEnum _ => true
  | ZOptional t' => transform_free t'
  end.

(** Templates with empty sources: their contents play no part in the
    handlers' control flow. *)
Definition blank_template : EmailTemplate := {| htmlTemplate := ""; textTemplate := "" |}.
Definition blank_templates : Templates :=
  {| consultationBookingTemplate := blank_template; contactFormTemplate := blank_template;
     applicationFormTemplate := blank_template |}.

Definition handler_input (lim : option bool) (p : jsobject) : HandlerInput :=
  {| request := {| x_forwarded_for := Some "203.0.113.7"; user_agent := Some "Mozilla/5.0" |};
     now_iso := "2026-10-19T09:00:00.000Z"; limiter := lim; payload := Some p; resume := None;
     smtp_user := "ops@carlora.com"; writeFile_ok := true |}.

(** A consultation request valid in every field, with the given honeypot,
    name and e-mail. *)
Definition consultation_fields (name email : string) (hp : jsval) : jsobject :=
  [("name", JStr name); ("email", JStr email); ("company", JStr "Acme Ltd");
   ("industry", JStr "Finance"); ("companySize", JStr "11-50");
   ("consultationType", JStr "Market Analysis");
   ("message", JStr "We would like to review our market strategy.");
   ("preferredDate", JStr "2026-11-02"); ("honeypot", hp)].

(* ------------------------------------------------------------------ *)
(** ** Connection check and the e-mail test script

    [EmailService.verifyConnection], [EmailService.testConnection], and
    [testEmailSystem] of the test script in [src/unnamed/part_001].  The
    SMTP server's answer to [transporter.verify()] is a type class, like
    its answer to [sendMail]. *)

Class Verifier := { verify_result : result unit }.

(** [verifyConnection()]. *)
Definition verifyConnection `{Verifier} (svc : EmailService) : M bool :=
  if negb (isConfigured svc) || match transporter svc with None => true | Some _ => false end
  then ret false
  else catch (lift verify_result;;
              log (LInfo "Email Service" "Connection verified successfully");;
              ret true)
             (fun err => log (LError "Email Connection Verification Error" (Some err));; ret false).

(** The options of the test e-mail; [process.env.SMTP_USER!] is the
    string ["undefined"] to [String.prototype] code when the variable is
    unset. *)
Definition test_options (e : env) : EmailOptions :=
  {| to := ToOne (match SMTP_USER e with Some u => u | None => "undefined" end);
     subject := "Email System Test";
     text := Some "This is a test email to verify the email system is working correctly.";
     html := Some "<p>This is a test email to verify the email system is working correctly.</p>";
     from := None; replyTo := None; attachments := None; template := None; templateData := None |}.

Section TestConnection.
Context `{Transport} `{Sanitizer} `{Verifier}.

(** [error instanceof Error ? error.message : 'Unknown error occurred'] in
    the [catch] of [testConnection]. *)
Variable message_of : exn -> string.

(** [testConnection()]: [success] and [message]; [now] is
    [Date.now().toString()] inside [sendEmail]. *)
Definition testConnection (e : env) (svc : EmailService) (now : string) : M (bool * string) :=
  catch (isConnected <- verifyConnection svc;;
         if negb isConnected then ret (false, "Failed to connect to email server")
         else testResult <- sendEmail e svc now (test_options e);;
              ret (testResult,
                   if testResult then "Email system is working correctly"
                   else "Failed to send test email"))
        (fun err => ret (false, message_of err)).

(** The test script: [require('dotenv').config()] has filled [e]; loading
    the service module builds the [emailService] singleton (with its
    warning, if any); [testEmailSystem()] then prints the results and calls
    [process.exit(1)] on failure.  The result is the exit code the script
    asks for ([None]: it returns normally). *)
Definition testEmailSystem (e : env) (now : string) : M (option nat) :=
  let '(svc, warnings) := newEmailService e in
  fold_right (fun l m => log l;; m) (ret tt) warnings;;
  log (LConsole "Testing email system...");;
  catch (result <- testConnection e svc now;;
         log (LConsole "Test Results:");;
         log (LConsole "-------------");;
         log (LConsole "Success:");;
         log (LConsole "Message:");;
         ret (if negb (fst result) then Some 1 else None))
        (fun _ => ret (Some 1)).

End TestConnection.

(* ------------------------------------------------------------------ *)
(** ** The logger of [src/unnamed/part_000]

    [logError], [logInfo] and [logWarning] print one object literal each,
    [{ timestamp, context, error | message, ...metadata }].  The spread
    comes last: a metadata key already present keeps its place and takes
    the metadata's value, any other key is added at the end. *)

(** [o[k] = v] on an object literal under construction. *)
Definition obj_set (k : string) (v : jsval) (o : jsobject) : jsobject :=
  if existsb (fun kv => String.eqb (fst kv) k) o
  then map (fun kv => if String.eqb (fst kv) k then (k, v) else kv) o
  else o ++ [(k, v)].

(** [{ ...o, ...md }]. *)
Definition spread (o md : jsobject) : jsobject :=
  fold_left (fun acc kv => obj_set (fst kv) (snd kv) acc) md o.

(** The [error] argument of [logError]: an [Error] instance is printed as
    the object [{ name, message, stack, code }], any other value as is. *)
Inductive log_arg :=
| AError (name message : string)
| AValue (v : jsval).

Definition error_field (a : log_arg) : jsval :=
  match a with
  | AError _ _ => JObj
  | AValue v => v
  end.

(** The objects printed by [logError], [logInfo] and [logWarning];
    [timestamp] is [new Date().toISOString()]. *)
Definition logError_record (timestamp context : string) (error : log_arg) (md : jsobject) : jsobject :=
  spread [("timestamp", JStr timestamp); ("context", JStr context); ("error", error_field error)] md.

Definition logInfo_record (timestamp context message : string) (md : jsobject) : jsobject :=
  spread [("timestamp", JStr timestamp); ("context", JStr context); ("message", JStr message)] md.

Definition logWarning_record (timestamp context message : string) (md : jsobject) : jsobject :=
  spread [("timestamp", JStr timestamp); ("context", JStr context); ("message", JStr message)] md.

(* ------------------------------------------------------------------ *)
(** ** Reference reading of template substitution

    Each occurrence of [pat], searched left to right, replaced by [rep]
    verbatim, with the search resuming after the occurrence.  [render] is
    compared with it below. *)

Fixpoint str_drop (n : nat) (s : string) : string :=
  match n, s with
  | O, _ => s
  | S _, EmptyString => EmptyString
  | S n', String _ s' => str_drop n' s'
  end.

Fixpoint literal_replace (fuel : nat) (pat rep s : string) : string :=
  match fuel with
  | O => s
  | S fuel' =>
      match s with
      | EmptyString => EmptyString
      | String c s' =>
          if String.prefix pat s
          then (rep ++ literal_replace fuel' pat rep (str_drop (String.length pat) s))%string
          else String c (literal_replace fuel' pat rep s')
      end
  end.

Definition replace_all_literal (pat rep s : string) : string :=
  literal_replace (String.length s) pat rep s.

(** A replacement string without [$]: [GetSubstitution] leaves it as is. *)
Definition no_dollar (s : string) : bool := all_chars (fun c => negb (Ascii.eqb c "$")) s.

(** [render] with every value inserted verbatim. *)
Definition render_literal (t : EmailTemplate) (data : jsobject) : RenderedTemplate :=
  fold_left
    (fun r kv =>
       let pat := ("{{" ++ fst kv ++ "}}")%string in
       {| rendered_html := replace_all_literal pat (String_of (snd kv)) (rendered_html r);
          rendered_text := replace_all_literal pat (String_of (snd kv)) (rendered_text r) |})
    data
    {| rendered_html := htmlTemplate t; rendered_text := textTemplate t |}.

(** Characters of an address safe in a header list: visible ASCII, and
    none of [,], [<], [>]. *)
Definition address_char (c : ascii) : bool :=
  in_range 33 126 c && negb (Ascii.eqb c ",") && negb (Ascii.eqb c "<") && negb (Ascii.eqb c ">").

(** An SMTP server that accepts [transporter.verify()], and a configured
    development environment. *)
Definition verify_up : Verifier := {| verify_result := Ok tt |}.

Definition development_env : env :=
  {| NODE_ENV := Some "development"; SMTP_HOST := Some "smtp.carlora.com"; SMTP_PORT := Some "465";
     SMTP_USER := Some "ops@carlora.com"; SMTP_PASSWORD := Some "secret";
     SMTP_FROM := Some "noreply@carlora.com" |}.

(** The [error.message] shown by [testConnection]'s [catch] in the
    examples. *)
Definition some_message (err : exn) : string := "Email transporter not initialized".

(** A handler event that is a call of [emailService.sendEmail]. *)
Definition is_send (ev : hevent) : bool :=
  match ev with HSend _ => true | _ => false end.

(* ================================================================== *)
(** * Properties *)

(** ** The e-mail service *)

Section Service.
Context `{Transport} `{Sanitizer}.

Lemma sendWithRetry_eq (e : env) (svc : EmailService) (mo : MailOptions) (r : nat) :
  sendWithRetry e svc mo r =
  catch (send_once e svc mo)
    (fun err =>
       if r <? maxRetries then
         log (LRetry (r + 1));; sleep retryDelay;; sendWithRetry e svc mo (r + 1)
       else raise err).
Proof.
  unfold sendWithRetry. destruct (r <? maxRetries) eqn:E.
  - apply Nat.ltb_lt in E.
    replace (maxRetries - r) with (S (maxRetries - (r + 1))) by (unfold maxRetries in *; lia).
    cbn [sendWithRetry_go]. rewrite (proj2 (Nat.ltb_lt r maxRetries) E). reflexivity.
  - apply Nat.ltb_ge in E.
    replace (maxRetries - r) with 0 by (unfold maxRetries in *; lia).
    simpl. rewrite (proj2 (Nat.ltb_ge r maxRetries) E). reflexivity.
Qed.

Lemma send_once_fail (e : env) (svc : EmailService) (mo : MailOptions) (cfg : transport_config)
    (w : world) :
  transporter svc = Some cfg -> sendMail_ok (attempts w) = false ->
  send_once e svc mo w = (Err ESmtp, {| attempts := S (attempts w); logs := logs w; sleeps := sleeps w |}).
Proof.
  intros Ht Hf. unfold send_once. rewrite Ht. unfold bind, sendMail. rewrite Hf. reflexivity.
Qed.

Lemma send_once_ok (e : env) (svc : EmailService) (mo : MailOptions) (cfg : transport_config)
    (w : world) :
  transporter svc = Some cfg -> sendMail_ok (attempts w) = true ->
  send_once e svc mo w =
  (Ok true, {| attempts := S (attempts w); logs := logs w ++ sent_logs e; sleeps := sleeps w |}).
Proof.
  intros Ht Hs. unfold send_once. rewrite Ht. unfold bind, sendMail. rewrite Hs.
  unfold sent_logs. destruct (negb (opt_eqb (NODE_ENV e) "production")); simpl;
    unfold log, ret; simpl; rewrite ?app_nil_r, <- ?app_assoc; reflexivity.
Qed.

(** One failed attempt with retries left: a retry line, a [retryDelay]
    wait, and the next attempt. *)
Lemma sendWithRetry_retry (e : env) (svc : EmailService) (mo : MailOptions)
    (cfg : transport_config) (r : nat) (w : world) :
  transporter svc = Some cfg -> sendMail_ok (attempts w) = false -> r < maxRetries ->
  sendWithRetry e svc mo r w =
  sendWithRetry e svc mo (r + 1)
    {| attempts := S (attempts w); logs := logs w ++ [LRetry (r + 1)];
       sleeps := sleeps w ++ [retryDelay] |}.
Proof.
  intros Ht Hf Hr. rewrite sendWithRetry_eq. unfold catch at 1.
  rewrite (send_once_fail e svc mo cfg w Ht Hf).
  apply Nat.ltb_lt in Hr. rewrite Hr. reflexivity.
Qed.

Lemma sendWithRetry_last (e : env) (svc : EmailService) (mo : MailOptions)
    (cfg : transport_config) (w : world) :
  transporter svc = Some cfg -> sendMail_ok (attempts w) = false ->
  sendWithRetry e svc mo maxRetries w =
  (Err ESmtp, {| attempts := S (attempts w); logs := logs w; sleeps := sleeps w |}).
Proof.
  intros Ht Hf. rewrite sendWithRetry_eq. unfold catch at 1.
  rewrite (send_once_fail e svc mo cfg w Ht Hf). reflexivity.
Qed.

Lemma sendWithRetry_first (e : env) (svc : EmailService) (mo : MailOptions)
    (cfg : transport_config) (r : nat) (w : world) :
  transporter svc = Some cfg -> sendMail_ok (attempts w) = true ->
  sendWithRetry e svc mo r w =
  (Ok true, {| attempts := S (attempts w); logs := logs w ++ sent_logs e; sleeps := sleeps w |}).
Proof.
  intros Ht Hs. rewrite sendWithRetry_eq. unfold catch at 1.
  rewrite (send_once_ok e svc mo cfg w Ht Hs). reflexivity.
Qed.

(** [sendEmail] once the addresses are valid, the service is configured
    outside development, and the message is built: [sendWithRetry], with
    any exception turned into [false]. *)
Lemma sendEmail_delivers (e : env) (svc : EmailService) (now : string) (o : EmailOptions)
    (mo : MailOptions) (w : world) :
  validateEmails (to o) = true -> opt_eqb (NODE_ENV e) "development" = false ->
  isConfigured svc = true -> prepareMail e svc now o = Ok mo ->
  sendEmail e svc now o w =
  catch (sendWithRetry e svc mo 0)
    (fun err => log (LError "Email Sending Error" (Some err));; ret false) w.
Proof.
  intros Hv Hd Hc Hp. unfold sendEmail, sendEmail_try.
  rewrite Hv, Hd, Hc. simpl. unfold catch, bind at 1, lift. rewrite Hp. reflexivity.
Qed.

End Service.

(** A failed attempt of [sendWithRetry] with retries left. *)
Ltac retry_step :=
  erewrite sendWithRetry_retry;
  [ | eassumption | simpl; first [ assumption | match goal with H : forall n, _ |- _ => apply H end ]
  | unfold maxRetries; lia ].

(** C2: [sendWithRetry] retries after a fixed [retryDelay] of 1000 ms.  A
    transport failing twice and then accepting sees exactly 3 attempts, two
    retry lines are logged and the result is [true] (also through
    [sendEmail]); a transport that always fails sees exactly
    [maxRetries + 1 = 4] attempts, the failure propagates out of
    [sendWithRetry], and [sendEmail] returns [false]. *)
Theorem sendWithRetry_fixed_delay_policy (T2 Tf : Transport) (San : Sanitizer) (e : env)
    (svc : EmailService) (cfg : transport_config) (now : string) (o : EmailOptions)
    (mo : MailOptions) (w : world) :
  transporter svc = Some cfg ->
  validateEmails (to o) = true -> opt_eqb (NODE_ENV e) "development" = false ->
  isConfigured svc = true -> @prepareMail San e svc now o = Ok mo ->
  @sendMail_ok T2 (attempts w) = false -> @sendMail_ok T2 (S (attempts w)) = false ->
  @sendMail_ok T2 (S (S (attempts w))) = true ->
  (forall n, @sendMail_ok Tf n = false) ->
  let w_ok := {| attempts := 3 + attempts w;
                 logs := logs w ++ [LRetry 1; LRetry 2] ++ sent_logs e;
                 sleeps := sleeps w ++ [retryDelay; retryDelay] |} in
  let w_ko := {| attempts := (maxRetries + 1) + attempts w;
                 logs := logs w ++ [LRetry 1; LRetry 2; LRetry 3];
                 sleeps := sleeps w ++ [retryDelay; retryDelay; retryDelay] |} in
  retryDelay = 1000 /\
  @sendWithRetry T2 e svc mo 0 w = (Ok true, w_ok) /\
  @sendEmail T2 San e svc now o w = (Ok true, w_ok) /\
  @sendWithRetry Tf e svc mo 0 w = (Err ESmtp, w_ko) /\
  @sendEmail Tf San e svc now o w = (Ok false, logged w_ko (LError "Email Sending Error" (Some ESmtp))).
Proof.
  intros Ht Hv Hd Hc Hp H0 H1 H2 Hf w_ok w_ko.
  assert (Eok : @sendWithRetry T2 e svc mo 0 w = (Ok true, w_ok)).
  { do 2 retry_step. erewrite sendWithRetry_first; [ | eassumption | simpl; assumption ].
    unfold w_ok. simpl. rewrite <- !app_assoc. reflexivity. }
  assert (Eko : @sendWithRetry Tf e svc mo 0 w = (Err ESmtp, w_ko)).
  { do 3 retry_step. erewrite sendWithRetry_last; [ | eassumption | apply Hf ].
    unfold w_ko. simpl. rewrite <- !app_assoc. reflexivity. }
  split; [reflexivity|]. split; [exact Eok|]. split.
  - rewrite (@sendEmail_delivers T2 San e svc now o mo w Hv Hd Hc Hp).
    unfold catch. rewrite Eok. reflexivity.
  - split; [exact Eko|].
    rewrite (@sendEmail_delivers Tf San e svc now o mo w Hv Hd Hc Hp).
    unfold catch. rewrite Eko. reflexivity.
Qed.

Lemma sendWithRetry_fixed_delay_policy_witness :
  retryDelay = 1000 /\
  @sendWithRetry smtp_third_call production_env (fst (newEmailService production_env)) plain_mail 0 world0
  = (Ok true, {| attempts := 3; logs := [LRetry 1; LRetry 2] ++ sent_logs production_env;
                 sleeps := [1000; 1000] |}) /\
  @sendEmail smtp_third_call purify_identity production_env (fst (newEmailService production_env)) "0"
    (plain_options (ToOne "ops@carlora.com")) world0
  = (Ok true, {| attempts := 3; logs := [LRetry 1; LRetry 2] ++ sent_logs production_env;
                 sleeps := [1000; 1000] |}) /\
  @sendWithRetry smtp_down production_env (fst (newEmailService production_env)) plain_mail 0 world0
  = (Err ESmtp, {| attempts := 4; logs := [LRetry 1; LRetry 2; LRetry 3]; sleeps := [1000; 1000; 1000] |}) /\
  @sendEmail smtp_down purify_identity production_env (fst (newEmailService production_env)) "0"
    (plain_options (ToOne "ops@carlora.com")) world0
  = (Ok false, {| attempts := 4;
                  logs := [LRetry 1; LRetry 2; LRetry 3; LError "Email Sending Error" (Some ESmtp)];
                  sleeps := [1000; 1000; 1000] |}).
Proof.
  exact (sendWithRetry_fixed_delay_policy smtp_third_call smtp_down purify_identity production_env
           (fst (newEmailService production_env))
           {| tc_host := "smtp.carlora.com"; tc_port := "587"; tc_secure := false;
              tc_user := "ops@carlora.com"; tc_pass := "secret"; tc_rejectUnauthorized := true |}
           "0" (plain_options (ToOne "ops@carlora.com")) plain_mail world0
           eq_refl eq_refl eq_refl eq_refl eq_refl eq_refl eq_refl eq_refl (fun _ => eq_refl)).
Defined.

(** C3: when some recipient fails the e-mail pattern, [sendEmail] returns
    [false] with the validation error logged, and no [sendMail] call is
    made (the attempt count is unchanged). *)
Theorem sendEmail_rejects_invalid_recipient `{Transport} `{Sanitizer} (e : env)
    (svc : EmailService) (now : string) (o : EmailOptions) (a : string) (w : world) :
  In a (recipient_list (to o)) -> validateEmail a = false ->
  sendEmail e svc now o w = (Ok false, logged w (LError "Email Sending Error" (Some EInvalidAddress))).
Proof.
  intros Hin Ha.
  assert (Hv : validateEmails (to o) = false).
  { unfold validateEmails. destruct (forallb validateEmail (recipient_list (to o))) eqn:E; [|reflexivity].
    rewrite forallb_forall in E. rewrite (E a Hin) in Ha. discriminate. }
  unfold sendEmail, sendEmail_try. rewrite Hv. reflexivity.
Qed.

Lemma sendEmail_rejects_invalid_recipient_witness :
  @sendEmail smtp_up purify_identity production_env (fst (newEmailService production_env)) "0"
    (plain_options (ToMany ["ops@carlora.com"; "not an address"])) world0
  = (Ok false, logged world0 (LError "Email Sending Error" (Some EInvalidAddress))).
Proof.
  apply (@sendEmail_rejects_invalid_recipient smtp_up purify_identity production_env
           (fst (newEmailService production_env)) "0"
           (plain_options (ToMany ["ops@carlora.com"; "not an address"])) "not an address" world0).
  - simpl. auto.
  - vm_compute. reflexivity.
Defined.

(** C4 (as the code has it): when [SMTP_HOST], [SMTP_USER] or
    [SMTP_PASSWORD] is missing or empty, the service is unconfigured, has
    no transporter, and [sendEmail] never reaches a transport, whatever
    [NODE_ENV] is (production included): with valid recipients it logs the
    would-be e-mail and returns [true]; with an invalid one it returns
    [false]. *)
Theorem unconfigured_sendEmail_simulates `{Transport} `{Sanitizer} (e : env) (now : string)
    (o : EmailOptions) (w : world) :
  truthy (SMTP_HOST e) && truthy (SMTP_USER e) && truthy (SMTP_PASSWORD e) = false ->
  isConfigured (fst (newEmailService e)) = false /\
  transporter (fst (newEmailService e)) = None /\
  sendEmail e (fst (newEmailService e)) now o w =
    (if validateEmails (to o)
     then (Ok true, logged w (LConsole "Email would be sent in production:"))
     else (Ok false, logged w (LError "Email Sending Error" (Some EInvalidAddress)))).
Proof.
  intros Hmiss.
  assert (Hi : initializeTransporter e
               = (None, false, [LWarn "Email service not configured: Missing SMTP credentials"])).
  { unfold initializeTransporter.
    destruct (truthy (SMTP_HOST e)), (truthy (SMTP_USER e)), (truthy (SMTP_PASSWORD e));
      simpl in *; congruence. }
  unfold newEmailService. rewrite Hi. simpl.
  split; [reflexivity|]. split; [reflexivity|].
  unfold sendEmail, sendEmail_try. simpl.
  destruct (validateEmails (to o)); simpl; [rewrite orb_true_r|]; reflexivity.
Qed.

Lemma unconfigured_sendEmail_simulates_witness :
  isConfigured (fst (newEmailService production_env_no_host)) = false /\
  transporter (fst (newEmailService production_env_no_host)) = None /\
  @sendEmail smtp_down purify_identity production_env_no_host
    (fst (newEmailService production_env_no_host)) "0"
    (plain_options (ToOne "ops@carlora.com")) world0
  = (if validateEmails (ToOne "ops@carlora.com")
     then (Ok true, logged world0 (LConsole "Email would be sent in production:"))
     else (Ok false, logged world0 (LError "Email Sending Error" (Some EInvalidAddress)))).
Proof.
  apply (@unconfigured_sendEmail_simulates smtp_down purify_identity production_env_no_host "0"
           (plain_options (ToOne "ops@carlora.com")) world0).
  reflexivity.
Defined.

(** C4 counterexample: in production, with no [SMTP_HOST] and an SMTP
    server that would reject everything, [sendEmail] to a valid address
    returns [true] without any [sendMail] call: no failure is returned. *)
Example unconfigured_production_send_returns_true :
  @sendEmail smtp_down purify_identity production_env_no_host
    (fst (newEmailService production_env_no_host)) "0"
    (plain_options (ToOne "ops@carlora.com")) world0
  = (Ok true, {| attempts := 0; logs := [LConsole "Email would be sent in production:"]; sleeps := [] |}).
Proof. vm_compute. reflexivity. Qed.

(** C10: [sendEmail] never throws: whatever the options, configuration,
    transport and sanitizer, it ends with a boolean; every exception of its
    [try] block (invalid address, missing transporter, exhausted retries,
    rendering or sanitizing failure) is logged and becomes [false]. *)
Theorem sendEmail_never_throws `{Transport} `{Sanitizer} (e : env) (svc : EmailService)
    (now : string) (o : EmailOptions) (w : world) :
  (exists (b : bool) (w' : world), sendEmail e svc now o w = (Ok b, w')) /\
  (forall (err : exn) (w' : world),
     sendEmail_try e svc now o w = (Err err, w') ->
     sendEmail e svc now o w = (Ok false, logged w' (LError "Email Sending Error" (Some err)))).
Proof.
  unfold sendEmail, catch.
  destruct (sendEmail_try e svc now o w) as [[b|err] w'] eqn:E.
  - split; [eauto|]. intros err w'' Herr. discriminate.
  - split; [do 2 eexists; reflexivity|]. intros err' w'' Herr. inversion Herr; subst. reflexivity.
Qed.

(** ** zod schemas and the handlers *)

Section Schemas.
Context `{Zod}.

Lemma parse_type_inl_nonempty (t : ztype) (v : jsval) (msgs : list string) :
  parse_type t v = inl msgs -> msgs <> [].
Proof.
  revert v msgs. induction t as [cs tr|opts|t IH]; intros v msgs Hp; simpl in Hp.
  - destruct v; try (injection Hp as <-; discriminate).
    destruct (flat_map _ cs) eqn:E; [discriminate|]. injection Hp as <-. discriminate.
  - destruct v; try (injection Hp as <-; discriminate).
    destruct (existsb _ opts); [discriminate|]. injection Hp as <-. discriminate.
  - destruct v; try (eapply IH; eassumption). discriminate.
Qed.

Lemma parse_type_string (cs : list check) (tr : option (string -> string)) (x v : jsval) :
  parse_type (ZString cs tr) x = inr v ->
  exists s, x = JStr s /\ (forall c, In c cs -> run_check s c = None)
            /\ v = JStr (match tr with Some f => f s | None => s end).
Proof.
  simpl. destruct x as [s| | | |]; try discriminate.
  destruct (flat_map _ cs) eqn:E; [|discriminate]. intros Hv. injection Hv as <-.
  exists s. split; [reflexivity|]. split; [|reflexivity].
  intros c Hc. destruct (run_check s c) eqn:Ec; [|reflexivity].
  assert (In s0 (flat_map (fun c => match run_check s c with Some m => [m] | None => [] end) cs)).
  { apply in_flat_map. exists c. rewrite Ec. simpl. auto. }
  rewrite E in H0. destruct H0.
Qed.

Lemma parse_type_transform_free (t : ztype) (x v : jsval) :
  transform_free t = true -> parse_type t x = inr v -> v = x.
Proof.
  revert x v. induction t as [cs tr|opts|t IH]; intros x v Hf Hp; simpl in Hf.
  - destruct tr; [discriminate|]. apply parse_type_string in Hp.
    destruct Hp as (s & -> & _ & ->). reflexivity.
  - simpl in Hp. destruct x; try discriminate.
    destruct (existsb _ opts); [|discriminate]. injection Hp as <-. reflexivity.
  - simpl in Hp. destruct x; try (eapply IH; eassumption). injection Hp as <-. reflexivity.
Qed.

(** Every issue of a field shows up, under the field's name. *)
Lemma parse_fields_issue (sch : schema) (data : jsobject) (k : string) (t : ztype)
    (msgs : list string) (m : string) :
  In (k, t) sch -> parse_type t (lookup k data) = inl msgs -> In m msgs ->
  In (k, m) (fst (parse_fields sch data)).
Proof.
  induction sch as [|[k' t'] sch IH]; intros Hin Hp Hm; [destruct Hin|].
  simpl. destruct (parse_fields sch data) as [iss out] eqn:Ep.
  destruct Hin as [Heq|Hin].
  - injection Heq as -> ->. rewrite Hp. simpl. apply in_or_app. left. apply in_map. exact Hm.
  - specialize (IH Hin Hp Hm). simpl in IH.
    destruct (parse_type t' (lookup k' data)) as [ms|[]]; simpl;
      try apply in_or_app; auto.
Qed.

Lemma parse_fields_absent (sch : schema) (data : jsobject) (k : string) :
  ~ In k (map fst sch) -> lookup k (snd (parse_fields sch data)) = JUndefined.
Proof.
  induction sch as [|[k' t'] sch IH]; intros Hk; [reflexivity|].
  simpl in Hk. simpl. destruct (parse_fields sch data) as [iss out] eqn:Ep. simpl in IH.
  assert (Hk' : k <> k') by (intros ->; apply Hk; auto).
  destruct (parse_type t' (lookup k' data)) as [ms|[]]; simpl; auto;
    rewrite (proj2 (String.eqb_neq k k') Hk'); auto.
Qed.

(** With no issue, each field of the schema holds its parsed value. *)
Lemma parse_fields_value (sch : schema) (data : jsobject) (k : string) (t : ztype) :
  NoDup (map fst sch) -> In (k, t) sch -> fst (parse_fields sch data) = [] ->
  exists v, parse_type t (lookup k data) = inr v /\ lookup k (snd (parse_fields sch data)) = v.
Proof.
  induction sch as [|[k' t'] sch IH]; intros Hnd Hin Hnil; [destruct Hin|].
  simpl in Hnd. inversion Hnd as [|? ? Hnotin Hnd']; subst.
  simpl in Hnil |- *. destruct (parse_fields sch data) as [iss out] eqn:Ep. simpl in IH.
  destruct (parse_type t' (lookup k' data)) as [ms|v'] eqn:Et'.
  - simpl in Hnil. apply app_eq_nil in Hnil. destruct Hnil as [Hms _].
    apply map_eq_nil in Hms. exfalso. exact (parse_type_inl_nonempty _ _ _ Et' Hms).
  - destruct Hin as [Heq|Hin].
    + injection Heq as -> ->. exists v'. split; [exact Et'|].
      destruct v'; simpl; try (rewrite String.eqb_refl; reflexivity).
      pose proof (parse_fields_absent sch data k Hnotin) as Ha. rewrite Ep in Ha. exact Ha.
    + assert (Hk : k <> k').
      { intros ->. apply Hnotin. apply in_map_iff. exists (k', t). auto. }
      assert (Hiss : iss = []) by (destruct v'; exact Hnil).
      destruct (IH Hnd' Hin Hiss) as (v & Hv & Hl). exists v. split; [exact Hv|].
      destruct v'; simpl; try rewrite (proj2 (String.eqb_neq k k') Hk); exact Hl.
Qed.

Lemma safeParse_inr (sch : schema) (data vd : jsobject) :
  safeParse sch data = inr vd -> fst (parse_fields sch data) = [] /\ snd (parse_fields sch data) = vd.
Proof.
  unfold safeParse. destruct (parse_fields sch data) as [[|i iss] out]; simpl; [|discriminate].
  intros Hv. injection Hv as <-. auto.
Qed.

Lemma safeParse_issue (sch : schema) (data : jsobject) (k : string) (t : ztype)
    (msgs : list string) (m : string) :
  In (k, t) sch -> parse_type t (lookup k data) = inl msgs -> In m msgs ->
  exists iss, safeParse sch data = inl iss /\ In (k, m) iss.
Proof.
  intros Hin Hp Hm. pose proof (parse_fields_issue sch data k t msgs m Hin Hp Hm) as Hi.
  unfold safeParse. destruct (parse_fields sch data) as [[|i iss] out]; simpl in *; [destruct Hi|].
  eauto.
Qed.

Lemma honeypot_in_schema (r : route) : In honeypot_field (schema_of r).
Proof. destruct r; simpl; tauto. Qed.

Lemma schema_nodup (r : route) : NoDup (map fst (schema_of r)).
Proof.
  destruct r; simpl; repeat constructor; simpl; intuition discriminate.
Qed.

Lemma honeypot_accepted (x v : jsval) :
  parse_type (snd honeypot_field) x = inr v -> v = JUndefined \/ v = JStr "".
Proof.
  simpl. destruct x as [s| | | |]; try discriminate.
  - destruct (0 <? String.length s) eqn:E; simpl; [discriminate|].
    intros Hv. injection Hv as <-. right. destruct s; [reflexivity|discriminate].
  - intros Hv. injection Hv as <-. auto.
Qed.

Lemma honeypot_refused (s : string) :
  s <> "" ->
  parse_type (snd honeypot_field) (JStr s) = inl ["String must contain at most 0 character(s)"].
Proof.
  intros Hs. simpl. destruct s; [congruence|]. reflexivity.
Qed.

(** What every schema leaves in the honeypot of the data it accepts. *)
Lemma validated_honeypot_empty (r : route) (data vd : jsobject) :
  safeParse (schema_of r) data = inr vd ->
  lookup "honeypot" vd = JUndefined \/ lookup "honeypot" vd = JStr "".
Proof.
  intros Hs. apply safeParse_inr in Hs. destruct Hs as [Hnil <-].
  destruct (parse_fields_value (schema_of r) data "honeypot" (snd honeypot_field)
              (schema_nodup r) (honeypot_in_schema r) Hnil) as (v & Hv & Hl).
  rewrite Hl. exact (honeypot_accepted _ _ Hv).
Qed.

Lemma honeypot_issue (r : route) (data : jsobject) (s : string) :
  lookup "honeypot" data = JStr s -> s <> "" ->
  exists iss, safeParse (schema_of r) data = inl iss
              /\ In ("honeypot", "String must contain at most 0 character(s)") iss.
Proof.
  intros Hl Hs. apply (safeParse_issue _ _ "honeypot" (snd honeypot_field)
                         ["String must contain at most 0 character(s)"]).
  - exact (honeypot_in_schema r).
  - rewrite Hl. exact (honeypot_refused s Hs).
  - simpl. auto.
Qed.

End Schemas.

(** C1 (the code's behaviour): a payload whose honeypot is a non-empty
    string never leads to an e-mail; but once the rate limiter admits the
    request, the handler answers 400 with the schema-validation body
    ["Please check your input and try again"] whose details name the
    honeypot field, whatever the other fields hold, and not with the
    generic ["Form submission rejected"] of its [// Check honeypot]
    branch: [max(0)] in the schema refuses the honeypot first. *)
Theorem honeypot_submission_rejected `{Zod} `{Templates} (r : route)
    (send : EmailOptions -> bool) (i : HandlerInput) (data : jsobject) (s : string) :
  payload i = Some data -> lookup "honeypot" data = JStr s -> s <> "" ->
  (forall o, ~ In (HSend o) (snd (POST r send i))) /\
  (limiter i = Some true ->
   exists iss,
     POST r send i =
       ({| status := 400; body := RErrorDetails "Please check your input and try again" iss |},
        [HLogError (validation_context r)])
     /\ In ("honeypot", "String must contain at most 0 character(s)") iss).
Proof.
  intros Hp Hl Hs. destruct (honeypot_issue r data s Hl Hs) as (iss & Hiss & Hin).
  unfold POST. rewrite Hp, Hiss.
  split.
  - intros o. destruct (limiter i) as [[|]|]; simpl; intuition discriminate.
  - intros ->. exists iss. auto.
Qed.

Lemma honeypot_submission_rejected_witness :
  (forall o, ~ In (HSend o) (snd (@POST zod3 blank_templates Consultation (fun _ => true)
                                   (handler_input (Some true)
                                      (consultation_fields "Ann Lee" "ann@example.com" (JStr "x")))))) /\
  (limiter (handler_input (Some true) (consultation_fields "Ann Lee" "ann@example.com" (JStr "x")))
     = Some true ->
   exists iss,
     @POST zod3 blank_templates Consultation (fun _ => true)
       (handler_input (Some true) (consultation_fields "Ann Lee" "ann@example.com" (JStr "x")))
     = ({| status := 400; body := RErrorDetails "Please check your input and try again" iss |},
        [HLogError (validation_context Consultation)])
     /\ In ("honeypot", "String must contain at most 0 character(s)") iss).
Proof.
  apply (@honeypot_submission_rejected zod3 blank_templates Consultation (fun _ => true)
           (handler_input (Some true) (consultation_fields "Ann Lee" "ann@example.com" (JStr "x")))
           (consultation_fields "Ann Lee" "ann@example.com" (JStr "x")) "x").
  - reflexivity.
  - reflexivity.
  - discriminate.
Defined.

(** The failing input of C1 traced in full: a consultation request valid
    in every field but the honeypot ["x"] gets the validation-failure body
    with field details, not the generic ["Form submission rejected"]. *)
Example honeypot_gets_validation_body :
  @POST zod3 blank_templates Consultation (fun _ => true)
    (handler_input (Some true) (consultation_fields "Ann Lee" "ann@example.com" (JStr "x")))
  = ({| status := 400;
        body := RErrorDetails "Please check your input and try again"
                  [("honeypot", "String must contain at most 0 character(s)")] |},
     [HLogError "Consultation Booking Validation Failed"]).
Proof. vm_compute. reflexivity. Qed.

(** C6: a request the rate limiter rejects gets 429 and the fixed message
    before its body is looked at: the response does not depend on the
    payload, and no e-mail is sent. *)
Theorem rate_limited_request_gets_429 `{Zod} `{Templates} (r : route)
    (send : EmailOptions -> bool) (i : HandlerInput) :
  limiter i = Some false ->
  POST r send i =
    ({| status := 429; body := RError "Too many requests. Please try again in a few minutes." |},
     [HLogError "Rate Limit Exceeded"]).
Proof. intros Hl. unfold POST. rewrite Hl. reflexivity. Qed.

Lemma rate_limited_request_gets_429_witness :
  @POST zod3 blank_templates Contact (fun _ => true)
    (handler_input (Some false) [("name", JStr "1"); ("email", JStr "not an address")])
  = ({| status := 429; body := RError "Too many requests. Please try again in a few minutes." |},
     [HLogError "Rate Limit Exceeded"]).
Proof.
  apply (@rate_limited_request_gets_429 zod3 blank_templates Contact (fun _ => true)
           (handler_input (Some false) [("name", JStr "1"); ("email", JStr "not an address")])).
  reflexivity.
Defined.

(** C9: data that passes any of the three schemas has an absent or empty
    honeypot, so the handlers' honeypot branch never runs and no response
    carries ["Form submission rejected"]; a non-empty honeypot is refused by
    the schema, with a field-level issue for [honeypot]. *)
Theorem honeypot_branch_unreachable `{Zod} `{Templates} (r : route)
    (send : EmailOptions -> bool) (i : HandlerInput) :
  body (fst (POST r send i)) <> RError "Form submission rejected" /\
  (forall data vd, safeParse (schema_of r) data = inr vd ->
     lookup "honeypot" vd = JUndefined \/ lookup "honeypot" vd = JStr "") /\
  (forall data s, lookup "honeypot" data = JStr s -> s <> "" ->
     exists iss, safeParse (schema_of r) data = inl iss
                 /\ In ("honeypot", "String must contain at most 0 character(s)") iss).
Proof.
  split; [|split; [exact (validated_honeypot_empty r) | exact (honeypot_issue r)]].
  unfold POST.
  destruct (limiter i) as [[|]|]; simpl; try discriminate.
  destruct (payload i) as [data|]; simpl; try discriminate.
  destruct (safeParse (schema_of r) data) as [iss|vd] eqn:Hs; simpl; try discriminate.
  destruct (validated_honeypot_empty r data vd Hs) as [Hh|Hh]; rewrite Hh; simpl;
    destruct (send (email_of r i vd)); simpl; try discriminate;
    destruct r, (resume i), (writeFile_ok i); simpl; discriminate.
Qed.

Section Normalization.
Context `{Zod}.

(** A schema without transforms hands its fields on unchanged. *)
Lemma transform_free_passthrough (sch : schema) (data vd : jsobject) (k : string) :
  NoDup (map fst sch) -> forallb (fun kt => transform_free (snd kt)) sch = true ->
  safeParse sch data = inr vd -> In k (map fst sch) -> lookup k vd = lookup k data.
Proof.
  intros Hnd Hf Hs Hk. apply safeParse_inr in Hs. destruct Hs as [Hnil <-].
  apply in_map_iff in Hk. destruct Hk as ([k' t] & Hk' & Hin). simpl in Hk'. subst k'.
  destruct (parse_fields_value sch data k t Hnd Hin Hnil) as (v & Hv & Hl). rewrite Hl.
  rewrite forallb_forall in Hf. apply (parse_type_transform_free t); [|exact Hv].
  exact (Hf (k, t) Hin).
Qed.

Lemma contact_field (data : jsobject) (k : string) (cs : list check) (f : string -> string) :
  In (k, ZString cs (Some f)) contactSchema ->
  fst (parse_fields contactSchema data) = [] ->
  exists s, lookup k data = JStr s /\ (forall c, In c cs -> run_check s c = None)
            /\ lookup k (snd (parse_fields contactSchema data)) = JStr (f s).
Proof.
  intros Hin Hnil.
  destruct (parse_fields_value contactSchema data k _ (schema_nodup Contact) Hin Hnil)
    as (v & Hv & Hl).
  apply parse_type_string in Hv. destruct Hv as (s & Hs & Hc & ->). eauto.
Qed.

End Normalization.

(** C7 (as the code has it): only the contact handler normalizes, and
    after validation: its checks see the raw strings, then the e-mail is
    lower-cased and trimmed and the name and message are trimmed.  The
    consultation and application schemas have no transform and hand every
    field on unchanged. *)
Theorem normalization_only_in_contact `{Zod} (data vd : jsobject) :
  (safeParse contactSchema data = inr vd ->
   exists n em m,
     lookup "name" data = JStr n /\ lookup "email" data = JStr em /\
     lookup "message" data = JStr m /\
     2 <= String.length n /\ name_regex_test n = true /\
     zod_email em = true /\ email_regex_test em = true /\
     10 <= String.length m <= 1000 /\
     lookup "name" vd = JStr (trim n) /\
     lookup "email" vd = JStr (trim (toLowerCase em)) /\
     lookup "message" vd = JStr (trim m)) /\
  (safeParse consultationSchema data = inr vd ->
   forall k, In k (map fst consultationSchema) -> lookup k vd = lookup k data) /\
  (safeParse applicationSchema data = inr vd ->
   forall k, In k (map fst applicationSchema) -> lookup k vd = lookup k data).
Proof.
  split; [|split].
  - intros Hs. apply safeParse_inr in Hs. destruct Hs as [Hnil <-].
    destruct (contact_field data "name" _ trim ltac:(simpl; auto) Hnil) as (n & Hn & Hcn & Hvn).
    destruct (contact_field data "email" _ (fun v => trim (toLowerCase v)) ltac:(simpl; auto) Hnil)
      as (em & He & Hce & Hve).
    destruct (contact_field data "message" _ trim ltac:(simpl; auto) Hnil) as (m & Hm & Hcm & Hvm).
    exists n, em, m. repeat split; auto.
    + specialize (Hcn _ (or_introl eq_refl)). simpl in Hcn.
      destruct (String.length n <? 2) eqn:E; [discriminate|]. apply Nat.ltb_ge in E. exact E.
    + specialize (Hcn _ (or_intror (or_introl eq_refl))). simpl in Hcn.
      destruct (name_regex_test n); [reflexivity|discriminate].
    + specialize (Hce _ (or_introl eq_refl)). simpl in Hce.
      destruct (zod_email em); [reflexivity|discriminate].
    + specialize (Hce _ (or_intror (or_introl eq_refl))). simpl in Hce.
      destruct (email_regex_test em); [reflexivity|discriminate].
    + specialize (Hcm _ (or_introl eq_refl)). simpl in Hcm.
      destruct (String.length m <? 10) eqn:E; [discriminate|]. apply Nat.ltb_ge in E. exact E.
    + specialize (Hcm _ (or_intror (or_introl eq_refl))). simpl in Hcm.
      destruct (1000 <? String.length m) eqn:E; [discriminate|]. apply Nat.ltb_ge in E. exact E.
  - intros Hs k Hk. exact (transform_free_passthrough consultationSchema data vd k
                             (schema_nodup Consultation) eq_refl Hs Hk).
  - intros Hs k Hk. exact (transform_free_passthrough applicationSchema data vd k
                             (schema_nodup Application) eq_refl Hs Hk).
Qed.

(** C7 counterexample: the consultation handler sends a mixed-case e-mail
    and an untrimmed name on as they came; the contact handler validates
    before trimming, so an address with a leading space is refused. *)
Example submitted_fields_not_normalized :
  match @POST zod3 blank_templates Consultation (fun _ => true)
          (handler_input (Some true) (consultation_fields " Ann Lee " "Ann@Example.COM" (JStr "")))
  with
  | (resp, HSend o :: _) =>
      status resp = 200 /\
      option_map (lookup "email") (templateData o) = Some (JStr "Ann@Example.COM") /\
      option_map (lookup "name") (templateData o) = Some (JStr " Ann Lee ")
  | _ => False
  end /\
  fst (@POST zod3 blank_templates Contact (fun _ => true)
         (handler_input (Some true)
            [("name", JStr "Ann Lee"); ("email", JStr " ann@example.com");
             ("message", JStr "Please call me back tomorrow.")]))
  = {| status := 400;
       body := RErrorDetails "Please check your input and try again"
                 [("email", "Invalid email format"); ("email", "Please enter a valid email address")] |}.
Proof. vm_compute. auto. Qed.

(** C5: [render] hands each value to [String.prototype.replace] as a
    replacement pattern, so [$$] in a value comes out as [$] and [$&] as the
    placeholder itself: the occurrences of [{{message}}] are not replaced by
    the value. *)
Theorem render_expands_replacement_patterns :
  render {| htmlTemplate := "<div>{{message}}</div>"; textTemplate := "Message: {{message}}" |}
         [("message", JStr "Budget: $$500, see $&")]
  = Ok {| rendered_html := "<div>Budget: $500, see {{message}}</div>";
          rendered_text := "Message: Budget: $500, see {{message}}" |}.
Proof. vm_compute. reflexivity. Qed.

(* ------------------------------------------------------------------ *)
(** ** Further properties of the code

    Beyond the specification's claims: the address pattern, the headers
    [sendEmail] builds, the connection test, the logger, template
    substitution, the schemas and the handlers. *)

Section Strings.

Lemma all_chars_app (p : ascii -> bool) (x y : string) :
  all_chars p (x ++ y) = all_chars p x && all_chars p y.
Proof.
  induction x as [|a x IH]; simpl; [reflexivity|]. rewrite IH, andb_assoc. reflexivity.
Qed.

Lemma all_chars_impl (p q : ascii -> bool) (s : string) :
  (forall c, p c = true -> q c = true) -> all_chars p s = true -> all_chars q s = true.
Proof.
  intros Hpq. induction s as [|a s IH]; simpl; [reflexivity|].
  intros Hs. apply andb_true_iff in Hs as [Ha Hs]. rewrite (Hpq a Ha), (IH Hs). reflexivity.
Qed.

Lemma split_on_nonempty (c : ascii) (s : string) : split_on c s <> [].
Proof.
  induction s as [|a s IH]; simpl; [discriminate|].
  destruct (Ascii.eqb a c); [discriminate|]. destruct (split_on c s); discriminate.
Qed.

Lemma split_on_free (c : ascii) (x : string) :
  all_chars (fun d => negb (Ascii.eqb d c)) x = true -> split_on c x = [x].
Proof.
  induction x as [|a x IH]; simpl; [reflexivity|].
  intros H. apply andb_true_iff in H as [Ha Hx]. apply negb_true_iff in Ha. rewrite Ha, (IH Hx).
  reflexivity.
Qed.

Lemma split_on_sep (c : ascii) (x y : string) :
  all_chars (fun d => negb (Ascii.eqb d c)) x = true ->
  split_on c (x ++ String c y) = x :: split_on c y.
Proof.
  induction x as [|a x IH]; simpl.
  - intros _. rewrite Ascii.eqb_refl. reflexivity.
  - intros H. apply andb_true_iff in H as [Ha Hx]. apply negb_true_iff in Ha. rewrite Ha, (IH Hx).
    reflexivity.
Qed.

Lemma join_cons_char (sep : string) (a : ascii) (w : string) (ws : list string) :
  join sep (String a w :: ws) = String a (join sep (w :: ws)).
Proof. destruct ws; reflexivity. Qed.

(** Joining the pieces of [split_on c s] with [c] gives back [s]. *)
Lemma join_split_on (c : ascii) (s : string) : join (String c EmptyString) (split_on c s) = s.
Proof.
  induction s as [|a s IH]; simpl; [reflexivity|].
  destruct (Ascii.eqb a c) eqn:E.
  - apply Ascii.eqb_eq in E. subst a.
    destruct (split_on c s) as [|w ws] eqn:Es; [exfalso; exact (split_on_nonempty c s Es)|].
    simpl. rewrite <- IH. reflexivity.
  - destruct (split_on c s) as [|w ws] eqn:Es; [exfalso; exact (split_on_nonempty c s Es)|].
    rewrite join_cons_char, IH. reflexivity.
Qed.

(** Splitting at [c] what was joined with [c] gives back the pieces, when
    none of them contains [c]. *)
Lemma split_on_join (c : ascii) (l : list string) :
  l <> [] -> Forall (fun x => all_chars (fun d => negb (Ascii.eqb d c)) x = true) l ->
  split_on c (join (String c EmptyString) l) = l.
Proof.
  induction l as [|x l IH]; intros Hne Hall; [congruence|].
  inversion Hall as [|? ? Hx Hl]; subst.
  destruct l as [|y l].
  - simpl. apply split_on_free, Hx.
  - change (join (String c EmptyString) (x :: y :: l))
      with (x ++ String c EmptyString ++ join (String c EmptyString) (y :: l))%string.
    change (String c EmptyString ++ join (String c EmptyString) (y :: l))%string
      with (String c (join (String c EmptyString) (y :: l))).
    rewrite split_on_sep by exact Hx. rewrite IH; [reflexivity|discriminate|exact Hl].
Qed.

Lemma all_chars_join (p : ascii -> bool) (c : ascii) (l : list string) :
  p c = true -> Forall (fun x => all_chars p x = true) l ->
  all_chars p (join (String c EmptyString) l) = true.
Proof.
  intros Hc. induction l as [|x l IH]; intros Hall; [reflexivity|].
  inversion Hall as [|? ? Hx Hl]; subst. destruct l as [|y l]; [exact Hx|].
  change (join (String c EmptyString) (x :: y :: l))
    with (x ++ String c EmptyString ++ join (String c EmptyString) (y :: l))%string.
  rewrite all_chars_app. cbn [String.append all_chars]. rewrite Hx, Hc, (IH Hl). reflexivity.
Qed.

End Strings.

Lemma str_append_nil (s : string) : (s ++ EmptyString)%string = s.
Proof. induction s as [|a s IH]; simpl; [reflexivity|]. rewrite IH. reflexivity. Qed.

Section Addresses.

(** A property of every character, decided over the 256 of them. *)
Lemma all_ascii (f : ascii -> bool) :
  forallb (fun n => f (ascii_of_nat n)) (seq 0 256) = true -> forall c, f c = true.
Proof.
  intros H c. rewrite forallb_forall in H. rewrite <- (ascii_nat_embedding c).
  apply H, in_seq. pose proof (nat_ascii_bounded c). lia.
Qed.

Lemma local_char_address (c : ascii) :
  local_char c = true -> address_char c && negb (Ascii.eqb c "@") = true.
Proof.
  intros Hc.
  assert (H := all_ascii (fun c => implb (local_char c) (address_char c && negb (Ascii.eqb c "@")))
                 ltac:(vm_compute; reflexivity) c).
  cbv beta in H. rewrite Hc in H. exact H.
Qed.

Lemma label_char_address (c : ascii) :
  label_char c || Ascii.eqb c "." = true -> address_char c && negb (Ascii.eqb c "@") = true.
Proof.
  intros Hc.
  assert (H := all_ascii (fun c => implb (label_char c || Ascii.eqb c ".")
                                         (address_char c && negb (Ascii.eqb c "@")))
                 ltac:(vm_compute; reflexivity) c).
  cbv beta in H. rewrite Hc in H. exact H.
Qed.

(** The domain of an accepted address: non-empty, letters, digits, [-]
    and [.] only. *)
Lemma email_domain_chars (dom : string) :
  forallb label_ok (split_on "."%char dom) = true ->
  dom <> EmptyString /\ all_chars (fun c => label_char c || Ascii.eqb c ".") dom = true.
Proof.
  intros H. split.
  - intros ->. discriminate.
  - rewrite <- (join_split_on "." dom). apply all_chars_join; [reflexivity|].
    apply Forall_forall. intros l Hl. rewrite forallb_forall in H. specialize (H l Hl).
    unfold label_ok in H. apply andb_true_iff in H as [H _]. apply andb_true_iff in H as [H _].
    apply andb_true_iff in H as [_ H].
    apply (all_chars_impl label_char); [|exact H]. intros c Hc. rewrite Hc. reflexivity.
Qed.

End Addresses.

(** [validateEmail] ([src/lib/email/email-service.ts], and the identical
    [validateEmail] of [src/lib/utils.ts]): an accepted address has exactly
    one [@], with a non-empty part on each side, and all its other
    characters are visible ASCII other than [,], [<] and [>] (so no space,
    tab, CR or LF). *)
Theorem validateEmail_single_at_visible (s : string) :
  validateEmail s = true ->
  exists loc dom, s = (loc ++ String "@" dom)%string /\ loc <> EmptyString /\ dom <> EmptyString /\
    all_chars (fun c => address_char c && negb (Ascii.eqb c "@")) (loc ++ dom) = true.
Proof.
  unfold validateEmail, email_regex_test. intros H.
  destruct (split_on "@" s) as [|loc [|dom [|x r]]] eqn:E; try discriminate.
  apply andb_true_iff in H as [H Hdom]. apply andb_true_iff in H as [Hlen Hloc].
  destruct (email_domain_chars dom Hdom) as [Hne Hd].
  exists loc, dom. split; [|split; [|split]].
  - rewrite <- (join_split_on "@" s), E. reflexivity.
  - intros ->. discriminate.
  - exact Hne.
  - rewrite all_chars_app, (all_chars_impl _ _ loc local_char_address Hloc),
      (all_chars_impl _ _ dom label_char_address Hd). reflexivity.
Qed.

Lemma validateEmail_single_at_visible_witness :
  validateEmail "ops@carlora.com" = true /\
  exists loc dom, "ops@carlora.com" = (loc ++ String "@" dom)%string /\ loc <> EmptyString /\
    dom <> EmptyString /\
    all_chars (fun c => address_char c && negb (Ascii.eqb c "@")) (loc ++ dom) = true.
Proof.
  split; [reflexivity|]. apply validateEmail_single_at_visible. reflexivity.
Defined.

Section Delivery.
Context `{Transport} `{Sanitizer}.

Lemma sendWithRetry_go_bounds (e : env) (svc : EmailService) (mo : MailOptions)
    (cfg : transport_config) (fuel r : nat) (w : world) :
  transporter svc = Some cfg ->
  S (attempts w) <= attempts (snd (sendWithRetry_go fuel e svc mo r w)) <= S fuel + attempts w.
Proof.
  intros Ht. revert r w.
  induction fuel as [|f IH]; intros r w; cbn [sendWithRetry_go]; unfold catch;
    destruct (sendMail_ok (attempts w)) eqn:Hs.
  1, 3: rewrite (send_once_ok e svc mo cfg w Ht Hs); simpl; lia.
  all: rewrite (send_once_fail e svc mo cfg w Ht Hs);
    destruct (r <? maxRetries); cbv [bind log sleep raise]; simpl; try lia.
  specialize (IH (r + 1) {| attempts := S (attempts w); logs := logs w ++ [LRetry (r + 1)];
                             sleeps := sleeps w ++ [retryDelay] |}).
  simpl in IH. lia.
Qed.

Lemma validateEmail_no_comma (s : string) :
  validateEmail s = true -> all_chars (fun d => negb (Ascii.eqb d ",")) s = true.
Proof.
  unfold validateEmail, email_regex_test. intros Hv.
  destruct (split_on "@" s) as [|loc [|dom [|x r]]] eqn:E; try discriminate.
  apply andb_true_iff in Hv as [Hv Hdom]. apply andb_true_iff in Hv as [_ Hloc].
  destruct (email_domain_chars dom Hdom) as [_ Hd].
  rewrite <- (join_split_on "@" s), E. simpl. rewrite all_chars_app. simpl.
  assert (Hq : forall c, address_char c && negb (Ascii.eqb c "@") = true ->
                         negb (Ascii.eqb c ",") = true).
  { intros c Hc. unfold address_char in Hc.
    destruct (Ascii.eqb c ","); [|reflexivity]. rewrite !andb_false_r in Hc. discriminate. }
  rewrite (all_chars_impl _ _ loc (fun c h => Hq c (local_char_address c h)) Hloc),
    (all_chars_impl _ _ dom (fun c h => Hq c (label_char_address c h)) Hd).
  reflexivity.
Qed.

Lemma prepareMail_to (e : env) (svc : EmailService) (now : string) (o : EmailOptions)
    (mo : MailOptions) :
  prepareMail e svc now o = Ok mo ->
  mo_to mo = match to o with ToOne s => s | ToMany l => join "," l end.
Proof.
  intros Hp. unfold prepareMail, rbind in Hp.
  repeat (match type of Hp with context [match ?x with _ => _ end] => destruct x end;
          try discriminate).
  all: inversion Hp; reflexivity.
Qed.

End Delivery.

(** [sendWithRetry(mailOptions)] as [sendEmail] calls it: whatever the SMTP
    server answers, a service with a transporter makes at least one and at
    most [maxRetries + 1 = 4] [sendMail] calls. *)
Theorem sendWithRetry_attempt_bounds `{Transport} (e : env) (svc : EmailService)
    (mo : MailOptions) (cfg : transport_config) (w : world) :
  transporter svc = Some cfg ->
  S (attempts w) <= attempts (snd (sendWithRetry e svc mo 0 w)) <= maxRetries + 1 + attempts w.
Proof.
  intros Ht. unfold sendWithRetry.
  pose proof (sendWithRetry_go_bounds e svc mo cfg (maxRetries - 0) 0 w Ht). unfold maxRetries in *. lia.
Qed.

Lemma sendWithRetry_attempt_bounds_witness :
  transporter (fst (newEmailService production_env)) <> None /\
  1 <= attempts (snd (@sendWithRetry smtp_third_call production_env
                        (fst (newEmailService production_env)) plain_mail 0 world0)) <= 4.
Proof.
  split; [discriminate|].
  apply (@sendWithRetry_attempt_bounds smtp_third_call production_env
           (fst (newEmailService production_env)) plain_mail
           {| tc_host := "smtp.carlora.com"; tc_port := "587"; tc_secure := false;
              tc_user := "ops@carlora.com"; tc_pass := "secret"; tc_rejectUnauthorized := true |}
           world0).
  reflexivity.
Defined.

(** [sendEmail] joins an array of recipients with [,] into the [to] field of
    [mailOptions]; since no address [validateEmail] accepts contains a
    comma, splitting that field at [,] gives back exactly the recipients,
    provided there is at least one. *)
Theorem sendEmail_to_field_splits_back `{Sanitizer} (e : env) (svc : EmailService) (now : string)
    (o : EmailOptions) (mo : MailOptions) :
  validateEmails (to o) = true -> recipient_list (to o) <> [] ->
  prepareMail e svc now o = Ok mo ->
  split_on ","%char (mo_to mo) = recipient_list (to o).
Proof.
  intros Hv Hne Hp. rewrite (prepareMail_to e svc now o mo Hp).
  unfold validateEmails in Hv. rewrite forallb_forall in Hv.
  destruct (to o) as [s|l]; simpl in *.
  - apply split_on_free, validateEmail_no_comma, Hv. left. reflexivity.
  - apply split_on_join; [exact Hne|]. apply Forall_forall. intros x Hx.
    apply validateEmail_no_comma, Hv, Hx.
Qed.

Lemma sendEmail_to_field_splits_back_witness :
  validateEmails (ToMany ["ops@carlora.com"; "sales@carlora.com"]) = true /\
  split_on ","%char
    (match @prepareMail purify_identity production_env (fst (newEmailService production_env)) "0"
             (plain_options (ToMany ["ops@carlora.com"; "sales@carlora.com"])) with
     | Ok mo => mo_to mo | Err _ => "" end)
  = ["ops@carlora.com"; "sales@carlora.com"].
Proof.
  split; [reflexivity|].
  apply (@sendEmail_to_field_splits_back purify_identity production_env
           (fst (newEmailService production_env)) "0"
           (plain_options (ToMany ["ops@carlora.com"; "sales@carlora.com"]))).
  - reflexivity.
  - discriminate.
  - reflexivity.
Defined.

(** [sendEmail] with [to: []]: [[].every(...)] holds, so an empty recipient
    array passes validation; a configured service outside development then
    calls [sendMail] (at least once) with an empty [to] field. *)
Theorem sendEmail_empty_recipient_array `{Transport} `{Sanitizer} (e : env) (svc : EmailService)
    (now : string) (o : EmailOptions) (mo : MailOptions) (cfg : transport_config) (w : world) :
  to o = ToMany [] -> opt_eqb (NODE_ENV e) "development" = false -> isConfigured svc = true ->
  transporter svc = Some cfg -> prepareMail e svc now o = Ok mo ->
  mo_to mo = EmptyString /\ S (attempts w) <= attempts (snd (sendEmail e svc now o w)).
Proof.
  intros Hto Hd Hc Ht Hp. split.
  - rewrite (prepareMail_to e svc now o mo Hp), Hto. reflexivity.
  - assert (Hv : validateEmails (to o) = true) by (rewrite Hto; reflexivity).
    rewrite (sendEmail_delivers e svc now o mo w Hv Hd Hc Hp).
    pose proof (sendWithRetry_go_bounds e svc mo cfg (maxRetries - 0) 0 w Ht) as Hb.
    unfold sendWithRetry, catch. fold (sendWithRetry_go (maxRetries - 0) e svc mo 0) in *.
    destruct (sendWithRetry_go (maxRetries - 0) e svc mo 0 w) as [[b|err] w'];
      cbv [bind log ret]; simpl in *; lia.
Qed.

Lemma sendEmail_empty_recipient_array_witness :
  mo_to (match @prepareMail purify_identity production_env (fst (newEmailService production_env)) "0"
                 (plain_options (ToMany [])) with Ok mo => mo | Err _ => plain_mail end) = EmptyString /\
  1 <= attempts (snd (@sendEmail smtp_up purify_identity production_env
                        (fst (newEmailService production_env)) "0" (plain_options (ToMany [])) world0)).
Proof.
  apply (@sendEmail_empty_recipient_array smtp_up purify_identity production_env
           (fst (newEmailService production_env)) "0" (plain_options (ToMany []))
           (match @prepareMail purify_identity production_env (fst (newEmailService production_env)) "0"
                    (plain_options (ToMany [])) with Ok mo => mo | Err _ => plain_mail end)
           {| tc_host := "smtp.carlora.com"; tc_port := "587"; tc_secure := false;
              tc_user := "ops@carlora.com"; tc_pass := "secret"; tc_rejectUnauthorized := true |}
           world0); reflexivity.
Defined.

(** The [List-Unsubscribe] header of [sendEmail] uses
    [process.env.SMTP_FROM?.split('@')[1] || 'carlora.com']: the text
    between the first and the second [@] of [SMTP_FROM] when it is
    non-empty, and [carlora.com] when [SMTP_FROM] is unset or has no [@]. *)
Theorem unsubscribe_domain_from_sender (e : env) :
  (SMTP_FROM e = None -> unsubscribe_domain e = "carlora.com") /\
  (forall f, SMTP_FROM e = Some f -> all_chars (fun d => negb (Ascii.eqb d "@")) f = true ->
     unsubscribe_domain e = "carlora.com") /\
  (forall loc dom tail,
     SMTP_FROM e = Some (loc ++ String "@" (dom ++ tail))%string ->
     all_chars (fun d => negb (Ascii.eqb d "@")) loc = true ->
     all_chars (fun d => negb (Ascii.eqb d "@")) dom = true ->
     dom <> EmptyString -> (tail = EmptyString \/ exists r, tail = String "@" r) ->
     unsubscribe_domain e = dom).
Proof.
  unfold unsubscribe_domain. split; [|split].
  - intros ->. reflexivity.
  - intros f -> Hf. rewrite (split_on_free "@" f Hf). reflexivity.
  - intros loc dom tail -> Hl Hd Hne Ht. rewrite (split_on_sep "@" loc _ Hl).
    assert (Hs : exists ws, split_on "@" (dom ++ tail) = dom :: ws).
    { destruct Ht as [->|[r ->]].
      - exists []. rewrite str_append_nil. apply split_on_free, Hd.
      - exists (split_on "@" r). apply split_on_sep, Hd. }
    destruct Hs as [ws ->]. simpl.
    destruct (String.eqb dom "") eqn:E; [apply String.eqb_eq in E; congruence|reflexivity].
Qed.

Section ConnectionTest.
Context `{Transport} `{Sanitizer} `{Verifier}.

Lemma sendEmail_returns (e : env) (svc : EmailService) (now : string) (o : EmailOptions) (w : world) :
  exists (b : bool) (w' : world), sendEmail e svc now o w = (Ok b, w').
Proof.
  unfold sendEmail, catch. destruct (sendEmail_try e svc now o w) as [[b|err] w'].
  - eauto.
  - do 2 eexists. reflexivity.
Qed.

Lemma verifyConnection_returns (svc : EmailService) (w : world) :
  exists (b : bool) (w' : world), verifyConnection svc w = (Ok b, w') /\ attempts w' = attempts w.
Proof.
  unfold verifyConnection.
  destruct (negb (isConfigured svc) || match transporter svc with None => true | Some _ => false end).
  - exists false, w. split; reflexivity.
  - unfold catch, bind, lift. destruct verify_result.
    + do 2 eexists. split; reflexivity.
    + do 2 eexists. split; reflexivity.
Qed.

Lemma verifyConnection_up (svc : EmailService) (cfg : transport_config) (w : world) :
  isConfigured svc = true -> transporter svc = Some cfg -> verify_result = Ok tt ->
  verifyConnection svc w = (Ok true, logged w (LInfo "Email Service" "Connection verified successfully")).
Proof.
  intros Hc Ht Hv. unfold verifyConnection. rewrite Hc, Ht. simpl.
  unfold catch, bind, lift. rewrite Hv. reflexivity.
Qed.

Lemma prepareMail_test (e : env) (svc : EmailService) (now h : string) :
  sanitizeHtml "<p>This is a test email to verify the email system is working correctly.</p>" = Ok h ->
  exists mo, prepareMail e svc now (test_options e) = Ok mo.
Proof.
  intros Hs. unfold prepareMail. simpl. rewrite Hs. simpl. eexists. reflexivity.
Qed.

End ConnectionTest.

(** [testConnection] on a service that is not configured: it reports
    [Failed to connect to email server] at once, without contacting the
    SMTP server and without logging anything. *)
Theorem testConnection_unconfigured `{Transport} `{Sanitizer} `{Verifier} (msg : exn -> string)
    (e : env) (svc : EmailService) (now : string) (w : world) :
  isConfigured svc = false ->
  testConnection msg e svc now w = (Ok (false, "Failed to connect to email server"), w).
Proof.
  intros Hc. unfold testConnection, verifyConnection. rewrite Hc. reflexivity.
Qed.

Lemma testConnection_unconfigured_witness :
  isConfigured (fst (newEmailService production_env_no_host)) = false /\
  @testConnection smtp_up purify_identity verify_up some_message production_env_no_host
    (fst (newEmailService production_env_no_host)) "0" world0
  = (Ok (false, "Failed to connect to email server"), world0).
Proof.
  split; [reflexivity|].
  apply (@testConnection_unconfigured smtp_up purify_identity verify_up some_message
           production_env_no_host (fst (newEmailService production_env_no_host)) "0" world0).
  reflexivity.
Defined.

(** [testConnection] in development: once [transporter.verify()] succeeds
    and [SMTP_USER] is a valid address, it reports [Email system is working
    correctly] although [sendEmail] only logs the test e-mail: no
    [sendMail] call is made. *)
Theorem testConnection_development_sends_nothing `{Transport} `{Sanitizer} `{Verifier}
    (msg : exn -> string) (e : env) (svc : EmailService) (cfg : transport_config) (now u : string)
    (w : world) :
  NODE_ENV e = Some "development" -> isConfigured svc = true -> transporter svc = Some cfg ->
  verify_result = Ok tt -> SMTP_USER e = Some u -> validateEmail u = true ->
  testConnection msg e svc now w =
  (Ok (true, "Email system is working correctly"),
   logged (logged w (LInfo "Email Service" "Connection verified successfully"))
          (LConsole "Email would be sent in production:")).
Proof.
  intros Hd Hc Ht Hv Hu Hok. unfold testConnection, catch, bind at 1.
  rewrite (verifyConnection_up svc cfg w Hc Ht Hv). simpl.
  unfold sendEmail, sendEmail_try, validateEmails. simpl. rewrite Hu. simpl. rewrite Hok, Hd.
  reflexivity.
Qed.

Lemma testConnection_development_sends_nothing_witness :
  @testConnection smtp_down purify_identity verify_up some_message development_env
    (fst (newEmailService development_env)) "0" world0
  = (Ok (true, "Email system is working correctly"),
     {| attempts := 0;
        logs := [LInfo "Email Service" "Connection verified successfully";
                 LConsole "Email would be sent in production:"];
        sleeps := [] |}).
Proof.
  apply (@testConnection_development_sends_nothing smtp_down purify_identity verify_up some_message
           development_env (fst (newEmailService development_env))
           {| tc_host := "smtp.carlora.com"; tc_port := "465"; tc_secure := true;
              tc_user := "ops@carlora.com"; tc_pass := "secret"; tc_rejectUnauthorized := false |}
           "0" "ops@carlora.com" world0); reflexivity.
Defined.

(** [testConnection] outside development, with [transporter.verify()]
    succeeding and [SMTP_USER] a valid address, against an SMTP server that
    rejects every [sendMail]: it reports [Failed to send test email] after
    exactly [maxRetries + 1 = 4] attempts. *)
Theorem testConnection_send_failure `{Transport} `{Sanitizer} `{Verifier} (msg : exn -> string)
    (e : env) (svc : EmailService) (cfg : transport_config) (now u h : string) (w : world) :
  opt_eqb (NODE_ENV e) "development" = false -> isConfigured svc = true ->
  transporter svc = Some cfg -> verify_result = Ok tt -> SMTP_USER e = Some u ->
  validateEmail u = true ->
  sanitizeHtml "<p>This is a test email to verify the email system is working correctly.</p>" = Ok h ->
  (forall n, sendMail_ok n = false) ->
  fst (testConnection msg e svc now w) = Ok (false, "Failed to send test email") /\
  attempts (snd (testConnection msg e svc now w)) = maxRetries + 1 + attempts w.
Proof.
  intros Hd Hc Ht Hv Hu Hok Hs Hf.
  destruct (prepareMail_test e svc now h Hs) as [mo Hp].
  assert (Hto : validateEmails (to (test_options e)) = true).
  { unfold validateEmails. simpl. rewrite Hu. simpl. rewrite Hok. reflexivity. }
  assert (E : exists w', testConnection msg e svc now w = (Ok (false, "Failed to send test email"), w')
                        /\ attempts w' = maxRetries + 1 + attempts w).
  { unfold testConnection. unfold catch at 1. unfold bind at 1.
    rewrite (verifyConnection_up svc cfg w Hc Ht Hv). simpl. unfold bind at 1.
    rewrite (sendEmail_delivers e svc now (test_options e) mo _ Hto Hd Hc Hp).
    unfold catch at 1.
    do 3 retry_step. erewrite sendWithRetry_last; [ | eassumption | apply Hf ].
    simpl. eexists. split; reflexivity. }
  destruct E as (w' & -> & Ha). split; [reflexivity|exact Ha].
Qed.

Lemma testConnection_send_failure_witness :
  fst (@testConnection smtp_down purify_identity verify_up some_message production_env
         (fst (newEmailService production_env)) "0" world0)
  = Ok (false, "Failed to send test email") /\
  attempts (snd (@testConnection smtp_down purify_identity verify_up some_message production_env
                   (fst (newEmailService production_env)) "0" world0)) = 4.
Proof.
  apply (@testConnection_send_failure smtp_down purify_identity verify_up some_message
           production_env (fst (newEmailService production_env))
           {| tc_host := "smtp.carlora.com"; tc_port := "587"; tc_secure := false;
              tc_user := "ops@carlora.com"; tc_pass := "secret"; tc_rejectUnauthorized := true |}
           "0" "ops@carlora.com" "<p>This is a test email to verify the email system is working correctly.</p>"
           world0); reflexivity.
Defined.

(** [testConnection] never reaches its [catch]: it always resolves to one of
    its three messages, and [success] is [true] exactly with [Email system is
    working correctly]. *)
Theorem testConnection_outcomes `{Transport} `{Sanitizer} `{Verifier} (msg : exn -> string)
    (e : env) (svc : EmailService) (now : string) (w : world) :
  exists (success : bool) (message : string) (w' : world),
    testConnection msg e svc now w = (Ok (success, message), w') /\
    (message = "Failed to connect to email server" \/ message = "Failed to send test email" \/
     message = "Email system is working correctly") /\
    (success = true <-> message = "Email system is working correctly").
Proof.
  unfold testConnection, catch at 1, bind at 1.
  destruct (verifyConnection_returns svc w) as (b & w1 & -> & _).
  destruct b; simpl.
  - unfold bind. destruct (sendEmail_returns e svc now (test_options e) w1) as (r & w2 & ->).
    destruct r; simpl; do 3 eexists; (split; [reflexivity|]); (split; [tauto|]).
    + split; reflexivity.
    + split; discriminate.
  - do 3 eexists. split; [reflexivity|]. split; [tauto|]. split; discriminate.
Qed.

(** The e-mail test script ([testEmailSystem]): when [SMTP_HOST],
    [SMTP_USER] or [SMTP_PASSWORD] is missing or empty, it asks for exit
    code 1, and no [sendMail] call is made. *)
Theorem testEmailSystem_unconfigured_exits_1 `{Transport} `{Sanitizer} `{Verifier}
    (msg : exn -> string) (e : env) (now : string) (w : world) :
  truthy (SMTP_HOST e) && truthy (SMTP_USER e) && truthy (SMTP_PASSWORD e) = false ->
  fst (testEmailSystem msg e now w) = Ok (Some 1) /\
  attempts (snd (testEmailSystem msg e now w)) = attempts w.
Proof.
  intros Hmiss.
  assert (Hi : initializeTransporter e
               = (None, false, [LWarn "Email service not configured: Missing SMTP credentials"])).
  { unfold initializeTransporter.
    destruct (truthy (SMTP_HOST e)), (truthy (SMTP_USER e)), (truthy (SMTP_PASSWORD e));
      simpl in *; congruence. }
  unfold testEmailSystem, newEmailService. rewrite Hi. simpl. split; reflexivity.
Qed.

Lemma testEmailSystem_unconfigured_exits_1_witness :
  fst (@testEmailSystem smtp_up purify_identity verify_up some_message production_env_no_host "0" world0)
  = Ok (Some 1) /\
  attempts (snd (@testEmailSystem smtp_up purify_identity verify_up some_message
                   production_env_no_host "0" world0)) = 0.
Proof.
  apply (@testEmailSystem_unconfigured_exits_1 smtp_up purify_identity verify_up some_message
           production_env_no_host "0" world0).
  reflexivity.
Defined.

Section Logger.

Lemma lookup_map_set (k k' : string) (v : jsval) (o : jsobject) :
  lookup k' (map (fun kv => if String.eqb (fst kv) k then (k, v) else kv) o) =
  if String.eqb k' k
  then (if existsb (fun kv => String.eqb (fst kv) k) o then v else JUndefined)
  else lookup k' o.
Proof.
  induction o as [|[k1 v1] o IH]; simpl.
  - destruct (String.eqb k' k); reflexivity.
  - destruct (String.eqb_spec k1 k) as [->|Hne]; simpl.
    + rewrite IH. destruct (String.eqb k' k); reflexivity.
    + rewrite IH. destruct (String.eqb_spec k' k) as [E2|E2], (String.eqb_spec k' k1) as [E3|E3];
        try reflexivity.
      subst k'. congruence.
Qed.

Lemma lookup_app_new (k k' : string) (v : jsval) (o : jsobject) :
  existsb (fun kv => String.eqb (fst kv) k) o = false ->
  lookup k' (o ++ [(k, v)]) = if String.eqb k' k then v else lookup k' o.
Proof.
  induction o as [|[k1 v1] o IH]; simpl; intros E.
  - destruct (String.eqb k' k); reflexivity.
  - apply orb_false_iff in E as [E1 E]. rewrite (IH E).
    destruct (String.eqb_spec k' k1) as [E2|E2], (String.eqb_spec k' k) as [E3|E3];
      try reflexivity.
    subst k' k1. rewrite String.eqb_refl in E1. discriminate.
Qed.

Lemma obj_set_lookup (k k' : string) (v : jsval) (o : jsobject) :
  lookup k' (obj_set k v o) = if String.eqb k' k then v else lookup k' o.
Proof.
  unfold obj_set. destruct (existsb (fun kv => String.eqb (fst kv) k) o) eqn:E.
  - rewrite lookup_map_set, E. reflexivity.
  - apply lookup_app_new, E.
Qed.

Lemma existsb_key_in (k : string) (md : jsobject) :
  existsb (fun kv => String.eqb (fst kv) k) md = true <-> In k (map fst md).
Proof.
  rewrite existsb_exists. split.
  - intros ([k1 v1] & Hin & Hk). apply String.eqb_eq in Hk. simpl in Hk. subst k1.
    apply in_map_iff. exists (k, v1). auto.
  - intros Hin. apply in_map_iff in Hin as ([k1 v1] & Hk & Hin). simpl in Hk. subst k1.
    exists (k, v1). split; [exact Hin|apply String.eqb_refl].
Qed.

(** [{ ...o, ...md }] for an object [md] (no repeated key): a key of [md]
    takes [md]'s value, any other keeps [o]'s. *)
Lemma spread_lookup (o md : jsobject) (k : string) :
  NoDup (map fst md) ->
  lookup k (spread o md) =
  if existsb (fun kv => String.eqb (fst kv) k) md then lookup k md else lookup k o.
Proof.
  unfold spread. revert o. induction md as [|[k1 v1] md IH]; intros o Hnd; simpl; [reflexivity|].
  inversion Hnd as [|? ? Hnot Hnd']; subst.
  rewrite (IH _ Hnd'), obj_set_lookup.
  destruct (String.eqb k1 k) eqn:E1; simpl.
  - apply String.eqb_eq in E1. subst k1. rewrite String.eqb_refl.
    destruct (existsb (fun kv => String.eqb (fst kv) k) md) eqn:E; [|reflexivity].
    apply existsb_key_in in E. contradiction.
  - rewrite String.eqb_sym, E1. reflexivity.
Qed.

End Logger.

(** The logger ([logError], [logInfo], [logWarning]): the [...metadata]
    spread comes last, so a metadata key named [timestamp], [context],
    [error] or [message] replaces the logger's own value; every other
    metadata key is printed with its value, and the logger's own fields not
    named in the metadata are printed unchanged. *)
Theorem logger_metadata_overrides (timestamp context message : string) (error : log_arg)
    (md : jsobject) (k : string) :
  NoDup (map fst md) ->
  let pick (own : jsobject) := if existsb (fun kv => String.eqb (fst kv) k) md
                               then lookup k md else lookup k own in
  lookup k (logError_record timestamp context error md)
    = pick [("timestamp", JStr timestamp); ("context", JStr context); ("error", error_field error)] /\
  lookup k (logInfo_record timestamp context message md)
    = pick [("timestamp", JStr timestamp); ("context", JStr context); ("message", JStr message)] /\
  lookup k (logWarning_record timestamp context message md)
    = pick [("timestamp", JStr timestamp); ("context", JStr context); ("message", JStr message)].
Proof.
  intros Hnd pick. unfold pick, logError_record, logInfo_record, logWarning_record.
  rewrite !(spread_lookup _ md k Hnd). repeat split.
Qed.

Lemma logger_metadata_overrides_witness :
  lookup "context" (logInfo_record "2026-10-19T09:00:00.000Z" "Form Submission Success"
                      "Contact form submitted successfully"
                      [("context", JStr "client"); ("email", JStr "ann@example.com")])
  = JStr "client" /\
  lookup "message" (logInfo_record "2026-10-19T09:00:00.000Z" "Form Submission Success"
                      "Contact form submitted successfully"
                      [("context", JStr "client"); ("email", JStr "ann@example.com")])
  = JStr "Contact form submitted successfully".
Proof.
  pose proof (fun k => logger_metadata_overrides "2026-10-19T09:00:00.000Z" "Form Submission Success"
                "Contact form submitted successfully" (AValue JNull)
                [("context", JStr "client"); ("email", JStr "ann@example.com")] k
                ltac:(repeat constructor; simpl; intuition discriminate)) as H.
  split; [destruct (H "context") as (_ & E & _) | destruct (H "message") as (_ & E & _)];
    rewrite E; reflexivity.
Defined.

Section Substitution.

Lemma GetSubstitution_plain (str matched : string) (pos : nat) (rep : string) :
  no_dollar rep = true -> GetSubstitution str matched pos rep = rep.
Proof.
  unfold no_dollar. induction rep as [|c r IH]; simpl; [reflexivity|].
  intros H. apply andb_true_iff in H as [Hc Hr]. apply negb_true_iff in Hc. rewrite Hc, (IH Hr).
  reflexivity.
Qed.

Lemma str_drop_length (n : nat) (s : string) : String.length (str_drop n s) <= String.length s.
Proof.
  revert s. induction n as [|n IH]; intros [|c s]; simpl; try lia. specialize (IH s). lia.
Qed.

Lemma replace_go_nil (str pat rep : string) (pos k : nat) :
  replace_go str pat rep pos k EmptyString = EmptyString.
Proof. reflexivity. Qed.

(** A pending skip of [k] characters is the same as resuming [k]
    characters later. *)
Lemma replace_go_skip (str pat rep : string) (pos k : nat) (rest : string) :
  replace_go str pat rep pos k rest = replace_go str pat rep (pos + k) 0 (str_drop k rest).
Proof.
  revert pos k. induction rest as [|c r IH]; intros pos k.
  - destruct k; reflexivity.
  - destruct k as [|k].
    + rewrite Nat.add_0_r. reflexivity.
    + simpl. rewrite IH. f_equal. lia.
Qed.

Lemma replace_go_literal (str pat rep : string) :
  pat <> EmptyString -> no_dollar rep = true ->
  forall n rest pos, String.length rest <= n ->
  replace_go str pat rep pos 0 rest = literal_replace n pat rep rest.
Proof.
  intros Hpat Hrep. induction n as [|n IH]; intros rest pos Hlen.
  - destruct rest; [reflexivity|simpl in Hlen; lia].
  - destruct rest as [|c r]; [reflexivity|]. simpl in Hlen. cbn [replace_go literal_replace].
    destruct (String.prefix pat (String c r)).
    + rewrite GetSubstitution_plain by exact Hrep. f_equal.
      rewrite replace_go_skip.
      destruct pat as [|p ps]; [congruence|].
      simpl String.length. rewrite Nat.sub_succ, Nat.sub_0_r. cbn [str_drop].
      apply IH. pose proof (str_drop_length (String.length ps) r). lia.
    + f_equal. apply IH. lia.
Qed.

Lemma replace_global_literal (pat rep s : string) :
  pat <> EmptyString -> no_dollar rep = true -> replace_global pat rep s = replace_all_literal pat rep s.
Proof.
  intros Hpat Hrep. unfold replace_global, replace_all_literal.
  apply replace_go_literal; auto.
Qed.

End Substitution.

(** [EmailTemplate.render] for data whose keys have identifier shape and
    whose values ([String(value)]) contain no [$]: every occurrence of each
    [{{key}}], in entry order, is replaced by the value verbatim, in both
    the HTML and the text template. *)
Theorem render_plain_values_verbatim (t : EmailTemplate) (data : jsobject) :
  Forall (fun kv => plain_key (fst kv) = true /\ no_dollar (String_of (snd kv)) = true) data ->
  render t data = Ok (render_literal t data).
Proof.
  unfold render, render_literal.
  generalize {| rendered_html := htmlTemplate t; rendered_text := textTemplate t |} as r0.
  induction data as [|[k v] data IH]; intros r0 Hall; [reflexivity|].
  inversion Hall as [|? ? [Hk Hv] Hrest]; subst. simpl in Hk, Hv. simpl.
  rewrite Hk, !replace_global_literal by (discriminate || exact Hv).
  apply IH, Hrest.
Qed.

Lemma render_plain_values_verbatim_witness :
  render {| htmlTemplate := "<div>{{name}}: {{message}}</div>"; textTemplate := "{{name}} wrote {{message}}" |}
         [("name", JStr "Ann"); ("message", JStr "Budget: 500 EUR")]
  = Ok {| rendered_html := "<div>Ann: Budget: 500 EUR</div>"; rendered_text := "Ann wrote Budget: 500 EUR" |}.
Proof.
  rewrite render_plain_values_verbatim.
  - reflexivity.
  - repeat constructor.
Defined.

Lemma trim_blank (s : string) : all_chars is_space s = true -> trim s = EmptyString.
Proof.
  intros H. unfold trim.
  assert (Hs : trim_start s = EmptyString).
  { induction s as [|c s IH]; simpl in *; [reflexivity|].
    apply andb_true_iff in H as [Hc Hs]. rewrite Hc. apply IH, Hs. }
  rewrite Hs. reflexivity.
Qed.

Section Blank.
Context `{Zod}.

Lemma parse_contact_name (n : string) :
  all_chars is_space n = true -> 2 <= String.length n ->
  parse_type (ZString [CMin 2 "Name must be at least 2 characters";
                       CRegex name_regex_test "Name must contain only letters"] (Some trim)) (JStr n)
  = inr (JStr EmptyString).
Proof.
  intros Hb Hl. simpl.
  assert (E1 : (String.length n <? 2) = false) by (apply Nat.ltb_ge; lia).
  assert (E2 : name_regex_test n = true).
  { unfold name_regex_test. apply (all_chars_impl is_space); [|exact Hb].
    intros c Hc. rewrite Hc, orb_true_r. reflexivity. }
  rewrite E1, E2. simpl. rewrite trim_blank by exact Hb. reflexivity.
Qed.

Lemma parse_contact_message (m : string) :
  all_chars is_space m = true -> 10 <= String.length m <= 1000 ->
  parse_type (ZString [CMin 10 "Message must be at least 10 characters";
                       CMax 1000 "Message must not exceed 1000 characters"] (Some trim)) (JStr m)
  = inr (JStr EmptyString).
Proof.
  intros Hb Hl. simpl.
  assert (E1 : (String.length m <? 10) = false) by (apply Nat.ltb_ge; lia).
  assert (E2 : (1000 <? String.length m) = false) by (apply Nat.ltb_ge; lia).
  rewrite E1, E2. simpl. rewrite trim_blank by exact Hb. reflexivity.
Qed.

Lemma parse_contact_email (em : string) :
  zod_email em = true -> email_regex_test em = true ->
  parse_type (ZString [CEmail "Invalid email format";
                       CRegex email_regex_test "Please enter a valid email address"]
                      (Some (fun v => trim (toLowerCase v)))) (JStr em)
  = inr (JStr (trim (toLowerCase em))).
Proof. intros Hz Hr. simpl. rewrite Hz, Hr. reflexivity. Qed.

End Blank.

(** The contact handler: a name of two or more whitespace characters and a
    message of 10 to 1000 whitespace characters pass the schema (its checks
    see the untrimmed strings), are trimmed to empty strings, and the
    notification e-mail is sent with subject [Contact Form: ] and an empty
    name and message. *)
Theorem contact_blank_submission_sent `{Zod} `{Templates} (send : EmailOptions -> bool)
    (i : HandlerInput) (data : jsobject) (n em m : string) :
  limiter i = Some true -> payload i = Some data ->
  lookup "name" data = JStr n -> all_chars is_space n = true -> 2 <= String.length n ->
  lookup "email" data = JStr em -> zod_email em = true -> email_regex_test em = true ->
  lookup "message" data = JStr m -> all_chars is_space m = true -> 10 <= String.length m <= 1000 ->
  lookup "timestamp" data = JUndefined -> lookup "honeypot" data = JUndefined ->
  exists o, In (HSend o) (snd (POST Contact send i)) /\ subject o = "Contact Form: " /\
    templateData o = Some ([("name", JStr EmptyString); ("email", JStr (trim (toLowerCase em)));
                           ("message", JStr EmptyString)] ++ metadata i).
Proof.
  intros Hlim Hpay Hn Hbn Hln He Hz Hr Hm Hbm Hlm Ht Hh.
  assert (Hs : safeParse contactSchema data
               = inr [("name", JStr EmptyString); ("email", JStr (trim (toLowerCase em)));
                      ("message", JStr EmptyString)]).
  { unfold safeParse, contactSchema, honeypot_field. cbn [parse_fields].
    rewrite Hn, He, Hm, Ht, Hh, (parse_contact_name n Hbn Hln), (parse_contact_email em Hz Hr),
      (parse_contact_message m Hbm Hlm).
    reflexivity. }
  exists (email_of Contact i [("name", JStr EmptyString); ("email", JStr (trim (toLowerCase em)));
                              ("message", JStr EmptyString)]).
  unfold POST. rewrite Hlim, Hpay. simpl schema_of. rewrite Hs. simpl js_truthy. cbv iota beta.
  split; [|split; reflexivity].
  destruct (send _); simpl; auto.
Qed.

Lemma contact_blank_submission_sent_witness :
  exists o, In (HSend o) (snd (@POST zod3 blank_templates Contact (fun _ => true)
                                 (handler_input (Some true)
                                    [("name", JStr "   "); ("email", JStr "ann@example.com");
                                     ("message", JStr "            ")]))) /\
    subject o = "Contact Form: " /\
    templateData o = Some ([("name", JStr EmptyString); ("email", JStr "ann@example.com");
                           ("message", JStr EmptyString)]
                           ++ metadata (handler_input (Some true)
                                          [("name", JStr "   "); ("email", JStr "ann@example.com");
                                           ("message", JStr "            ")])).
Proof.
  apply (@contact_blank_submission_sent zod3 blank_templates (fun _ => true)
           (handler_input (Some true)
              [("name", JStr "   "); ("email", JStr "ann@example.com");
               ("message", JStr "            ")])
           [("name", JStr "   "); ("email", JStr "ann@example.com"); ("message", JStr "            ")]
           "   " "ann@example.com" "            "); try reflexivity; vm_compute; try reflexivity; lia.
Defined.

(** The effects of every handler: it calls [emailService.sendEmail] at
    most once, and only for a request the limiter admits, whose body parses
    and validates with a falsy honeypot, with the e-mail built from the
    validated data; it writes a file only in the application handler, to
    the path of the uploaded resume, after a send that succeeded; and a 200
    response always follows a successful send. *)
Theorem POST_effect_discipline `{Zod} `{Templates} (r : route) (send : EmailOptions -> bool)
    (i : HandlerInput) :
  let evs := snd (POST r send i) in
  length (filter is_send evs) <= 1 /\
  (forall o, In (HSend o) evs ->
     limiter i = Some true /\
     exists data vd, payload i = Some data /\ safeParse (schema_of r) data = inr vd /\
       js_truthy (lookup "honeypot" vd) = false /\ o = email_of r i vd) /\
  (forall p, In (HWriteFile p) evs ->
     r = Application /\
     exists o a, In (HSend o) evs /\ send o = true /\ resume i = Some a /\ p = att_path a) /\
  (status (fst (POST r send i)) = 200 -> exists o, In (HSend o) evs /\ send o = true).
Proof.
  cbv zeta. unfold POST.
  destruct (limiter i) as [[|]|] eqn:Hl.
  2, 3: cbn; split; [lia|]; split; [|split];
    intros; repeat match goal with
                   | H : _ \/ _ |- _ => destruct H
                   | H : False |- _ => destruct H
                   end; discriminate.
  destruct (payload i) as [data|] eqn:Hp.
  2: cbn; split; [lia|]; split; [|split];
    intros; repeat match goal with
                   | H : _ \/ _ |- _ => destruct H
                   | H : False |- _ => destruct H
                   end; discriminate.
  destruct (safeParse (schema_of r) data) as [errs|vd] eqn:Hs.
  1: cbn; split; [lia|]; split; [|split];
    intros; repeat match goal with
                   | H : _ \/ _ |- _ => destruct H
                   | H : False |- _ => destruct H
                   end; discriminate.
  destruct (js_truthy (lookup "honeypot" vd)) eqn:Hh.
  1: cbn; split; [lia|]; split; [|split];
    intros; repeat match goal with
                   | H : _ \/ _ |- _ => destruct H
                   | H : False |- _ => destruct H
                   end; discriminate.
  remember (email_of r i vd) as o0 eqn:Ho0.
  destruct (send o0) eqn:Hsd; cbn [negb].
  - destruct r, (resume i) as [a|] eqn:Hr;
      cbn [fst snd app filter is_send length In negb status];
      try destruct (writeFile_ok i) eqn:Hwf;
      cbn [fst snd app filter is_send length In negb status].
    all: split; [lia|]; split; [|split].
    all: first
      [ intros o Ho; decompose [or] Ho; try discriminate; try contradiction;
        match goal with E : HSend _ = HSend _ |- _ => injection E as E; subst o end; (split; [reflexivity|]);
        exists data, vd; auto
      | intros p Hw; decompose [or] Hw; try discriminate; try contradiction;
        match goal with E : HWriteFile _ = HWriteFile _ |- _ => injection E as E; subst p end; (split; [reflexivity|]);
        exists o0; eexists; (split; [left; reflexivity|]); eauto
      | intros Hst; try discriminate; exists o0; (split; [left; reflexivity|]); exact Hsd ].
  - cbn [fst snd app filter is_send length In negb status]; split; [lia|]; split; [|split].
    + intros o Ho; decompose [or] Ho; try discriminate; try contradiction.
      match goal with E : HSend _ = HSend _ |- _ => injection E as E; subst o end; split; [reflexivity|].
      exists data, vd; auto.
    + intros p Hw; decompose [or] Hw; discriminate || contradiction.
    + intros Hst; discriminate.
Qed.

(** The application handler: when the e-mail with the resume attached has
    been sent, but blanking the uploaded resume file fails, the handler
    still answers 500 with the technical-difficulties message, after the
    send, the write attempt and the error log. *)
Theorem application_cleanup_failure_after_send `{Zod} `{Templates}
    (send : EmailOptions -> bool) (i : HandlerInput) (data vd : jsobject) (a : attachment) :
  limiter i = Some true -> payload i = Some data ->
  safeParse applicationSchema data = inr vd -> js_truthy (lookup "honeypot" vd) = false ->
  resume i = Some a -> send (email_of Application i vd) = true -> writeFile_ok i = false ->
  POST Application send i
  = ({| status := 500; body := RError tech_difficulties |},
     [HSend (email_of Application i vd); HWriteFile (att_path a);
      HLogError "Application Form Error"]).
Proof.
  intros Hl Hp Hs Hh Hr Hsd Hw.
  unfold POST. rewrite Hl, Hp. simpl schema_of. rewrite Hs, Hh.
  cbv iota. rewrite Hsd. cbn [negb]. rewrite Hr, Hw. reflexivity.
Qed.

Lemma application_cleanup_failure_after_send_witness :
  let i := {| request := {| x_forwarded_for := None; user_agent := None |};
              now_iso := "2026-10-19T09:00:00.000Z"; limiter := Some true;
              payload := Some [("name", JStr "Ann Lee"); ("email", JStr "ann@example.com");
                               ("phone", JStr "+15550100"); ("message", JStr "Resume attached, thanks.")];
              resume := Some {| att_filename := "cv.pdf"; att_path := "/tmp/upload_1" |};
              smtp_user := "ops@carlora.com"; writeFile_ok := false |} in
  @POST zod3 blank_templates Application (fun _ => true) i
  = ({| status := 500; body := RError tech_difficulties |},
     [HSend (@email_of blank_templates Application i
               [("name", JStr "Ann Lee"); ("email", JStr "ann@example.com");
                ("phone", JStr "+15550100"); ("message", JStr "Resume attached, thanks.")]);
      HWriteFile "/tmp/upload_1"; HLogError "Application Form Error"]).
Proof.
  intros i.
  apply (@application_cleanup_failure_after_send zod3 blank_templates (fun _ => true) i
           [("name", JStr "Ann Lee"); ("email", JStr "ann@example.com");
            ("phone", JStr "+15550100"); ("message", JStr "Resume attached, thanks.")]
           _ {| att_filename := "cv.pdf"; att_path := "/tmp/upload_1" |});
    vm_compute; reflexivity.
Defined.
